(** * A shallow embedding of the BJNP codec and of the scanner-button poll
    client (crate [bjnp] and the [scanner-button] binary).

    Bytes are [Z] values in [0, 256), buffers are [list Z]; a [usize]
    offset or length is a [nat]; a [u16]/[u32]/[u64] is a [Z] whose range
    is stated where it matters.  Every fallible routine returns a
    [result]; [Rust] panics are [None] where a routine can panic. *)

From Stdlib Require Import ZArith Lia.
From Stdlib Require String Ascii.
Import (notations) String.
From stdpp Require Import base list gmap.

Open Scope Z_scope.

Abbreviation bytes := (list Z).

(** ** Results and the [?] operator *)

Inductive result (A E : Type) : Type :=
| Ok (a : A)
| Err (e : E).
Arguments Ok {A E} a.
Arguments Err {A E} e.

Definition bind {A B E} (m : result A E) (k : A -> result B E) : result B E :=
  match m with Ok a => k a | Err e => Err e end.

Definition map_err {A E F} (f : E -> F) (m : result A E) : result A F :=
  match m with Ok a => Ok a | Err e => Err (f e) end.

Definition map_ok {A B E} (f : A -> B) (m : result A E) : result B E :=
  match m with Ok a => Ok (f a) | Err e => Err e end.

Notation "'let?' x ':=' m 'in' k" := (bind m (fun x => k))
  (at level 200, x name, m at level 100, k at level 200).

(** ** Byte helpers: [to_be_bytes] / [from_be_bytes] *)

Definition u16_to_be_bytes (v : Z) : bytes :=
  [Z.land (Z.shiftr v 8) 255; Z.land v 255].

Definition u32_to_be_bytes (v : Z) : bytes :=
  [Z.land (Z.shiftr v 24) 255; Z.land (Z.shiftr v 16) 255;
   Z.land (Z.shiftr v 8) 255; Z.land v 255].

(** [buf[i]] on a slice whose length has been checked by the caller. *)
Definition byte_at (buf : bytes) (i : nat) : Z := nth i buf 0.

(** [buf[a..b]] *)
Definition slice (buf : bytes) (a b : nat) : bytes := firstn (b - a) (skipn a buf).

Definition u16_from_be_bytes (buf : bytes) (i : nat) : Z :=
  Z.lor (Z.shiftl (byte_at buf i) 8) (byte_at buf (S i)).

Definition u32_from_be_bytes (buf : bytes) (i : nat) : Z :=
  Z.lor (Z.shiftl (byte_at buf i) 24)
    (Z.lor (Z.shiftl (byte_at buf (S i)) 16)
       (Z.lor (Z.shiftl (byte_at buf (S (S i))) 8) (byte_at buf (S (S (S i)))))).

(** ** serdes.rs: errors *)

(** [FormatError]; the [&'static str] message is not modelled. *)
Inductive FormatError : Type :=
| InvalidByte (byte : Z) (offset : nat)
| InvalidSlice (span_start span_end : nat).

Inductive ParseError : Type :=
| InvalidFormat (e : FormatError)
| UnexpectedEnd (expected actual : nat).

Definition format_offset_by (e : FormatError) (by_ : nat) : FormatError :=
  match e with
  | InvalidByte b o => InvalidByte b (o + by_)
  | InvalidSlice s t => InvalidSlice (s + by_) (t + by_)
  end.

Definition parse_offset_by (e : ParseError) (by_ : nat) : ParseError :=
  match e with
  | InvalidFormat f => InvalidFormat (format_offset_by f by_)
  | UnexpectedEnd x a => UnexpectedEnd (x + by_) a
  end.

(** [impl<T: SizedDeserialize> Deserialize for T]: the raw view is the
    first [size] bytes of the buffer, converted by [try_from]. *)
Definition sized_deserialize {T} (size : nat) (try_from : bytes -> result T FormatError)
    (buffer : bytes) : result (T * nat) ParseError :=
  if (length buffer <? size)%nat then Err (UnexpectedEnd size (length buffer))
  else map_ok (fun x => (x, size)) (map_err InvalidFormat (try_from (firstn size buffer))).

(** ** header.rs *)

Inductive PacketType := PrinterCommand | ScannerCommand | PrinterResponse | ScannerResponse.

Definition PacketType_to_u8 (t : PacketType) : Z :=
  match t with
  | PrinterCommand => 1 | ScannerCommand => 2
  | PrinterResponse => 129 | ScannerResponse => 130
  end.

(** [make_u8_field!]'s [TryFrom<u8>] *)
Definition PacketType_try_from (v : Z) : result PacketType FormatError :=
  match v with
  | 1 => Ok PrinterCommand | 2 => Ok ScannerCommand
  | 129 => Ok PrinterResponse | 130 => Ok ScannerResponse
  | _ => Err (InvalidByte v 0)
  end.

Inductive PayloadType := Discover | StartScan | JobDetails | Close | Read | Write | GetId | Poll.

Definition PayloadType_to_u8 (t : PayloadType) : Z :=
  match t with
  | Discover => 1 | StartScan => 2 | JobDetails => 16 | Close => 17
  | Read => 32 | Write => 33 | GetId => 48 | Poll => 50
  end.

Definition PayloadType_try_from (v : Z) : result PayloadType FormatError :=
  match v with
  | 1 => Ok Discover | 2 => Ok StartScan | 16 => Ok JobDetails | 17 => Ok Close
  | 32 => Ok Read | 33 => Ok Write | 48 => Ok GetId | 50 => Ok Poll
  | _ => Err (InvalidByte v 0)
  end.

Record Header := {
  packet_type : PacketType;
  payload_type : PayloadType;
  error : Z;
  sequence : Z;
  job_id : option Z;        (* Option<NonZeroU16> *)
  payload_size : Z
}.

Definition MAGIC : bytes := [66; 74; 78; 80].  (* b"BJNP" *)

Definition RawHeader_SIZE : nat := 16.

(** [From<&Header> for RawHeader], laid out as the packed struct. *)
Definition header_to_raw (h : Header) : bytes :=
  MAGIC ++ [PacketType_to_u8 (packet_type h); PayloadType_to_u8 (payload_type h);
            error h; 0]
  ++ u16_to_be_bytes (sequence h)
  ++ u16_to_be_bytes (match job_id h with Some j => j | None => 0 end)
  ++ u32_to_be_bytes (payload_size h).

(** [offset_of!(RawHeader, payload_type)] *)
Definition RawHeader_payload_type_offset : nat := 5.

(** [TryFrom<&RawHeader> for Header] *)
Definition header_try_from (raw : bytes) : result Header FormatError :=
  if negb (bool_decide (firstn 4 raw = MAGIC)) then Err (InvalidSlice 0 4) else
  let? pt := PacketType_try_from (byte_at raw 4) in
  let? yt := map_err (fun e => format_offset_by e RawHeader_payload_type_offset)
               (PayloadType_try_from (byte_at raw 5)) in
  let seq := u16_from_be_bytes raw 8 in
  let jid := u16_from_be_bytes raw 10 in
  let len := u32_from_be_bytes raw 12 in
  Ok {| packet_type := pt; payload_type := yt; error := byte_at raw 6;
        sequence := seq; job_id := if decide (jid = 0) then None else Some jid;
        payload_size := len |}.

Definition header_deserialize (buffer : bytes) : result (Header * nat) ParseError :=
  sized_deserialize RawHeader_SIZE header_try_from buffer.

(** ** serdes.rs: the [Serialize] and [Deserialize] traits *)

(** [Serialize::serialize] into a [Vec] (an [io::Error] is [None]) and
    [Serialize::size]. *)
Class Serialize (T : Type) := {
  serialize : T -> option bytes;
  size : T -> nat
}.

Class Deserialize (T : Type) := {
  deserialize : bytes -> result (T * nat) ParseError
}.

(** [serdes::Empty] *)
Inductive Empty := EmptyV.

#[export] Instance Empty_Serialize : Serialize Empty := {
  serialize _ := Some [];
  size _ := 0%nat
}.

#[export] Instance Empty_Deserialize : Deserialize Empty := {
  deserialize _ := Ok (EmptyV, 0%nat)
}.

#[export] Instance Header_Serialize : Serialize Header := {
  serialize h := Some (header_to_raw h);
  size _ := RawHeader_SIZE
}.

#[export] Instance Header_Deserialize : Deserialize Header := {
  deserialize := header_deserialize
}.

(** ** packet.rs *)

Record Packet (T : Type) := { pk_header : Header; pk_payload : T }.
Arguments pk_header {T}.
Arguments pk_payload {T}.

Definition packet_serialize {T} `{Serialize T} (p : Packet T) : option bytes :=
  match serialize (pk_payload p) with
  | Some pl => Some (header_to_raw (pk_header p) ++ pl)
  | None => None
  end.

Record PacketBuilder := {
  pb_packet_type : PacketType;
  pb_payload_type : PayloadType;
  pb_error : option Z;
  pb_sequence : option Z;
  pb_job_id : option Z
}.

Definition PacketBuilder_new (pt : PacketType) (yt : PayloadType) : PacketBuilder :=
  {| pb_packet_type := pt; pb_payload_type := yt; pb_error := None;
     pb_sequence := None; pb_job_id := None |}.

Definition PacketBuilder_sequence (b : PacketBuilder) (s : Z) : PacketBuilder :=
  {| pb_packet_type := pb_packet_type b; pb_payload_type := pb_payload_type b;
     pb_error := pb_error b; pb_sequence := Some s; pb_job_id := pb_job_id b |}.

(** [PacketBuilder::build]: [payload.size() as u32] wraps. *)
Definition PacketBuilder_build {T} `{Serialize T} (b : PacketBuilder) (payload : T) : Packet T :=
  {| pk_header :=
       {| packet_type := pb_packet_type b; payload_type := pb_payload_type b;
          error := default 0 (pb_error b); sequence := default 0 (pb_sequence b);
          job_id := pb_job_id b;
          payload_size := Z.of_nat (size payload) mod 2 ^ 32 |};
     pk_payload := payload |}.

Record PacketHeaderOnly := { pho_header : Header; pho_payload : bytes }.

(** [PacketHeaderOnly::parse] *)
Definition PacketHeaderOnly_parse (buffer : bytes) : result PacketHeaderOnly ParseError :=
  let? ho := header_deserialize buffer in
  let '(h, offset) := ho in
  let psize := Z.to_nat (payload_size h) in
  if (offset + psize <=? length buffer)%nat
  then Ok {| pho_header := h; pho_payload := slice buffer offset (offset + psize) |}
  else Err (UnexpectedEnd (offset + psize) (length buffer)).

(** [TryFrom<PacketHeaderOnly> for Packet<T>] *)
Definition Packet_try_from {T} `{Deserialize T} (p : PacketHeaderOnly) : result (Packet T) ParseError :=
  let? pl := deserialize (pho_payload p) in
  Ok {| pk_header := pho_header p; pk_payload := fst pl |}.

(** ** discover.rs *)

(** [MacAddr]: an [Eui48] holds 6 bytes, an [Eui64] 8. *)
Inductive MacAddr := Eui48 (a : bytes) | Eui64 (a : bytes).
(** [IpAddr]: [octets()] of 4 or 16 bytes. *)
Inductive IpAddr := V4 (a : bytes) | V6 (a : bytes).

Record DiscoverResponse := { mac_addr : MacAddr; ip_addr : IpAddr }.

Definition MacAddr_size (m : MacAddr) : nat := match m with Eui48 _ => 6 | Eui64 _ => 8 end.
Definition IpAddr_size (i : IpAddr) : nat := match i with V4 _ => 4 | V6 _ => 16 end.
Definition MacAddr_bytes (m : MacAddr) : bytes := match m with Eui48 a | Eui64 a => a end.
Definition IpAddr_bytes (i : IpAddr) : bytes := match i with V4 a | V6 a => a end.

Definition RawResponseHeader_SIZE : nat := 6.

Definition discover_serialize (r : DiscoverResponse) : bytes :=
  [0; 1; 8; 0; Z.of_nat (MacAddr_size (mac_addr r)); Z.of_nat (IpAddr_size (ip_addr r))]
  ++ MacAddr_bytes (mac_addr r) ++ IpAddr_bytes (ip_addr r).

(** [SizedDeserialize] for the fixed byte arrays: the first [n] bytes. *)
Definition array_deserialize (n : nat) (buffer : bytes) : result (bytes * nat) ParseError :=
  sized_deserialize n (fun raw => Ok raw) buffer.

(** [impl Deserialize for discover::Response] *)
Definition discover_deserialize (buffer0 : bytes) : result (DiscoverResponse * nat) ParseError :=
  let? hs := sized_deserialize RawResponseHeader_SIZE (fun raw => Ok raw) buffer0 in
  let '(raw_header, size0) := hs in
  let buffer1 := skipn size0 buffer0 in
  let? mn :=
    match byte_at raw_header 4 with
    | 6 => map_ok (fun '(a, s) => (Eui48 a, s))
             (map_err (fun e => parse_offset_by e size0) (array_deserialize 6 buffer1))
    | 8 => map_ok (fun '(a, s) => (Eui64 a, s))
             (map_err (fun e => parse_offset_by e size0) (array_deserialize 8 buffer1))
    | b => Err (InvalidFormat (InvalidByte b 4))
    end in
  let '(mac, next1) := mn in
  let size1 := (size0 + next1)%nat in
  let buffer2 := skipn next1 buffer1 in
  let? ipn :=
    match byte_at raw_header 5 with
    | 4 => map_ok (fun '(a, s) => (V4 a, s))
             (map_err (fun e => parse_offset_by e size1) (array_deserialize 4 buffer2))
    | 16 => map_ok (fun '(a, s) => (V6 a, s))
             (map_err (fun e => parse_offset_by e size1) (array_deserialize 16 buffer2))
    | b => Err (InvalidFormat (InvalidByte b 5))
    end in
  let '(ip, next2) := ipn in
  Ok ({| mac_addr := mac; ip_addr := ip |}, (size1 + next2)%nat).

(** ** poll/response.rs *)

Inductive ColorMode := Color | Mono.
Inductive Size := A4 | Letter | S10x15 | S13x18 | Auto.
Inductive Format := Jpeg | Tiff | Pdf | KompaktPdf.
Inductive DPI := D75 | D150 | D300 | D600.
Inductive Source := Flatbed | AutoDocumentFeeder.
Inductive FeederType := Simplex | Duplex.
Inductive FeederOrientation := Portrait | Landscape.

Definition ColorMode_to_u8 (v : ColorMode) : Z := match v with Color => 1 | Mono => 2 end.
Definition ColorMode_try_from (v : Z) : result ColorMode FormatError :=
  match v with 1 => Ok Color | 2 => Ok Mono | _ => Err (InvalidByte v 0) end.

Definition Size_to_u8 (v : Size) : Z :=
  match v with A4 => 1 | Letter => 2 | S10x15 => 8 | S13x18 => 9 | Auto => 11 end.
Definition Size_try_from (v : Z) : result Size FormatError :=
  match v with
  | 1 => Ok A4 | 2 => Ok Letter | 8 => Ok S10x15 | 9 => Ok S13x18 | 11 => Ok Auto
  | _ => Err (InvalidByte v 0)
  end.

Definition Format_to_u8 (v : Format) : Z :=
  match v with Jpeg => 1 | Tiff => 2 | Pdf => 3 | KompaktPdf => 4 end.
Definition Format_try_from (v : Z) : result Format FormatError :=
  match v with
  | 1 => Ok Jpeg | 2 => Ok Tiff | 3 => Ok Pdf | 4 => Ok KompaktPdf
  | _ => Err (InvalidByte v 0)
  end.

Definition DPI_to_u8 (v : DPI) : Z := match v with D75 => 1 | D150 => 2 | D300 => 3 | D600 => 4 end.
Definition DPI_try_from (v : Z) : result DPI FormatError :=
  match v with
  | 1 => Ok D75 | 2 => Ok D150 | 3 => Ok D300 | 4 => Ok D600
  | _ => Err (InvalidByte v 0)
  end.

Definition Source_to_u8 (v : Source) : Z := match v with Flatbed => 1 | AutoDocumentFeeder => 2 end.
Definition Source_try_from (v : Z) : result Source FormatError :=
  match v with 1 => Ok Flatbed | 2 => Ok AutoDocumentFeeder | _ => Err (InvalidByte v 0) end.

Definition FeederType_to_u8 (v : FeederType) : Z := match v with Simplex => 1 | Duplex => 2 end.
Definition FeederType_try_from (v : Z) : result FeederType FormatError :=
  match v with 1 => Ok Simplex | 2 => Ok Duplex | _ => Err (InvalidByte v 0) end.

Definition FeederOrientation_to_u8 (v : FeederOrientation) : Z :=
  match v with Portrait => 1 | Landscape => 2 end.
Definition FeederOrientation_try_from (v : Z) : result FeederOrientation FormatError :=
  match v with 1 => Ok Portrait | 2 => Ok Landscape | _ => Err (InvalidByte v 0) end.

Record Interrupt := {
  color_mode : ColorMode;
  isize : Size;
  format : Format;
  dpi : DPI;
  source : Source;
  feeder_type : option FeederType;
  feeder_orientation : option FeederOrientation
}.

Definition RawInterrupt_SIZE : nat := 20.

(** [From<&Interrupt> for RawInterrupt] (layout of the MX920). *)
Definition interrupt_to_raw (i : Interrupt) : bytes :=
  repeat 0 7
  ++ [ColorMode_to_u8 (color_mode i); Source_to_u8 (source i);
      default 0 (FeederType_to_u8 <$> feeder_type i);
      Size_to_u8 (isize i); Format_to_u8 (format i); DPI_to_u8 (dpi i)]
  ++ repeat 0 3
  ++ [default 0 (FeederOrientation_to_u8 <$> feeder_orientation i)]
  ++ repeat 0 3.

(** [TryFrom<&RawInterrupt> for Interrupt]: the fields are checked in the
    order the source evaluates them. *)
Definition interrupt_try_from (raw : bytes) : result Interrupt FormatError :=
  let? ft := (if decide (byte_at raw 9 = 0) then Ok None
              else map_ok Some (FeederType_try_from (byte_at raw 9))) in
  let? fo := (if decide (byte_at raw 16 = 0) then Ok None
              else map_ok Some (FeederOrientation_try_from (byte_at raw 16))) in
  let? cm := ColorMode_try_from (byte_at raw 7) in
  let? so := Source_try_from (byte_at raw 8) in
  let? sz := Size_try_from (byte_at raw 10) in
  let? fm := Format_try_from (byte_at raw 11) in
  let? dp := DPI_try_from (byte_at raw 12) in
  Ok {| color_mode := cm; isize := sz; format := fm; dpi := dp; source := so;
        feeder_type := ft; feeder_orientation := fo |}.

#[export] Instance Interrupt_Serialize : Serialize Interrupt := {
  serialize i := Some (interrupt_to_raw i);
  size _ := RawInterrupt_SIZE
}.

#[export] Instance Interrupt_Deserialize : Deserialize Interrupt := {
  deserialize := sized_deserialize RawInterrupt_SIZE interrupt_try_from
}.

Record PollResponse := {
  status : Z;
  session_id : option Z;
  action_id : option Z;
  interrupt : option Interrupt
}.

Definition RawResponse_SIZE : nat := 36.

(** [TryFrom<&RawResponse> for Response]: status at 0..4, session id at
    4..8, [00 00 00 14] at 8..12, action id at 12..16, the interrupt at
    16..36. *)
Definition poll_response_try_from (raw : bytes) : result PollResponse FormatError :=
  let st := u32_from_be_bytes raw 0 in
  if negb (Z.eqb (Z.land st 32768) 0) then
    let aid := u32_from_be_bytes raw 12 in
    let? intr := interrupt_try_from (skipn 16 raw) in
    Ok {| status := st; session_id := None; action_id := Some aid; interrupt := Some intr |}
  else
    let sid := u32_from_be_bytes raw 4 in
    Ok {| status := st; session_id := Some sid; action_id := None; interrupt := None |}.

Definition poll_response_deserialize : bytes -> result (PollResponse * nat) ParseError :=
  sized_deserialize RawResponse_SIZE poll_response_try_from.

#[export] Instance PollResponse_Deserialize : Deserialize PollResponse := {
  deserialize := poll_response_deserialize
}.

#[export] Instance DiscoverResponse_Deserialize : Deserialize DiscoverResponse := {
  deserialize := discover_deserialize
}.

#[export] Instance DiscoverResponse_Serialize : Serialize DiscoverResponse := {
  serialize r := Some (discover_serialize r);
  size r := (RawResponseHeader_SIZE + MacAddr_size (mac_addr r) + IpAddr_size (ip_addr r))%nat
}.

(** ** poll/command.rs: [PrimitiveDateTime] and its 14-byte wire form *)

Record DateTime := {
  year : Z; month : Z; day : Z;
  hour : Z; minute : Z; second : Z; nanosecond : Z
}.

Definition is_leap_year (y : Z) : bool :=
  (Z.eqb (y mod 4) 0 && negb (Z.eqb (y mod 100) 0)) || Z.eqb (y mod 400) 0.

Definition days_in_month (y m : Z) : Z :=
  match m with
  | 2 => if is_leap_year y then 29 else 28
  | 4 | 6 | 9 | 11 => 30
  | _ => 31
  end.

(** The values a [time::PrimitiveDateTime] can hold (without the
    [large-dates] feature). *)
Definition datetime_valid (d : DateTime) : Prop :=
  -9999 <= year d <= 9999 /\ 1 <= month d <= 12 /\ 1 <= day d <= days_in_month (year d) (month d)
  /\ 0 <= hour d <= 23 /\ 0 <= minute d <= 59 /\ 0 <= second d <= 59
  /\ 0 <= nanosecond d <= 999999999.

(** [n] as [w] zero-padded ASCII decimal digits. *)
Fixpoint digits (w : nat) (n : Z) : bytes :=
  match w with
  | O => []
  | S w' => digits w' (n / 10) ++ [48 + n mod 10]
  end.

(** [format_into] with [[year][month][day][hour][minute][second]] into the
    14-byte array: a negative year takes a [-] sign, the output no longer
    fits, and the [unwrap] panics ([None]). *)
Definition datetime_format (d : DateTime) : option bytes :=
  if year d <? 0 then None
  else Some (digits 4 (year d) ++ digits 2 (month d) ++ digits 2 (day d)
             ++ digits 2 (hour d) ++ digits 2 (minute d) ++ digits 2 (second d)).

(** A run of ASCII decimal digits. *)
Fixpoint parse_digits_acc (acc : Z) (bs : bytes) : option Z :=
  match bs with
  | [] => Some acc
  | b :: bs' => if (48 <=? b) && (b <=? 57) then parse_digits_acc (acc * 10 + (b - 48)) bs' else None
  end.

Definition parse_digits (bs : bytes) : option Z := parse_digits_acc 0 bs.

Definition in_range (lo hi v : Z) : option Z := if (lo <=? v) && (v <=? hi) then Some v else None.

(** [Parsed::parse_items] with the same description: exactly four year
    digits, then two digits per component, each in its range. *)
Definition datetime_parse_items (bs : bytes) : option (Z * Z * Z * Z * Z * Z) :=
  y ← parse_digits (slice bs 0 4);
  mo ← parse_digits (slice bs 4 6) ≫= in_range 1 12;
  d ← parse_digits (slice bs 6 8) ≫= in_range 1 31;
  h ← parse_digits (slice bs 8 10) ≫= in_range 0 23;
  mi ← parse_digits (slice bs 10 12) ≫= in_range 0 59;
  s ← parse_digits (slice bs 12 14) ≫= in_range 0 59;
  Some (y, mo, d, h, mi, s).

(** [Parsed -> PrimitiveDateTime]: [None] when the day does not exist in
    that month (the source's [unwrap] then panics). *)
Definition datetime_from_parsed (p : Z * Z * Z * Z * Z * Z) : option DateTime :=
  let '(y, mo, d, h, mi, s) := p in
  if d <=? days_in_month y mo
  then Some {| year := y; month := mo; day := d; hour := h; minute := mi; second := s;
               nanosecond := 0 |}
  else None.

(** ** poll/command.rs: [PollType] and [Command] *)

Inductive PollType := PEmpty | PHostOnly | PFull | PReset.

Definition PollType_to_u16 (t : PollType) : Z :=
  match t with PEmpty => 0 | PHostOnly => 1 | PFull => 2 | PReset => 5 end.

(** [make_wider_field!]'s [TryFrom<u16>] *)
Definition PollType_try_from (v : Z) : result PollType FormatError :=
  match v with
  | 0 => Ok PEmpty | 1 => Ok PHostOnly | 2 => Ok PFull | 5 => Ok PReset
  | _ => Err (InvalidSlice 0 2)
  end.

(** [Host]: the 64 bytes of 32 big-endian UTF-16 code units. *)
Abbreviation Host := bytes.

Definition MAX_HOST_LENGTH : nat := 64.

(** [Command(InnerCommand)] with its four payloads. *)
Inductive Command :=
| EmptyCommand
| HostOnlyCommand (host : Host)
| FullCommand (session_id : Z) (host : Host) (datetime : DateTime)
| ResetCommand (session_id : Z) (host : Host) (action_id : Z).

Definition Command_poll_type (c : Command) : PollType :=
  match c with
  | EmptyCommand => PEmpty | HostOnlyCommand _ => PHostOnly
  | FullCommand _ _ _ => PFull | ResetCommand _ _ _ => PReset
  end.

Definition RawEmptyCommand_SIZE : nat := 78.
Definition RawHostOnlyCommand_SIZE : nat := 6 + 64 + 4.
Definition RawFullCommand_SIZE : nat := 2 + 4 + 64 + 4 + 20 + 4 + 14 + 2.
Definition RawResetCommand_SIZE : nat := 2 + 4 + 64 + 4 + 4 + 20.

(** [span_of!(RawFullCommand, datetime)] *)
Definition RawFullCommand_datetime_span : nat * nat := (98%nat, 112%nat).

(** The [From<&XCommand> for RawXCommand] conversions, as wire bytes. *)
Definition EmptyCommand_to_raw : bytes := repeat 0 78.

Definition HostOnlyCommand_to_raw (host : Host) : bytes :=
  repeat 0 6 ++ host ++ repeat 0 4.

Definition FullCommand_to_raw (sid : Z) (host : Host) (dt : DateTime) : option bytes :=
  match datetime_format dt with
  | Some d =>
      Some ([0; 0] ++ u32_to_be_bytes sid ++ host ++ [0; 0; 0; 20] ++ repeat 0 20
            ++ [0; 0; 0; 16] ++ d ++ [0; 0])
  | None => None
  end.

Definition ResetCommand_to_raw (sid : Z) (host : Host) (aid : Z) : bytes :=
  [0; 0] ++ u32_to_be_bytes sid ++ host ++ [0; 0; 0; 20] ++ u32_to_be_bytes aid ++ repeat 0 20.

(** [impl Serialize for Command]: the type tag, then the raw body. *)
Definition Command_serialize (c : Command) : option bytes :=
  let tag := u16_to_be_bytes (PollType_to_u16 (Command_poll_type c)) in
  match c with
  | EmptyCommand => Some (tag ++ EmptyCommand_to_raw)
  | HostOnlyCommand h => Some (tag ++ HostOnlyCommand_to_raw h)
  | FullCommand s h d => (fun body => tag ++ body) <$> FullCommand_to_raw s h d
  | ResetCommand s h a => Some (tag ++ ResetCommand_to_raw s h a)
  end.

Definition Command_size (c : Command) : nat :=
  2 + match c with
      | EmptyCommand => RawEmptyCommand_SIZE
      | HostOnlyCommand _ => RawHostOnlyCommand_SIZE
      | FullCommand _ _ _ => RawFullCommand_SIZE
      | ResetCommand _ _ _ => RawResetCommand_SIZE
      end.

#[export] Instance Command_Serialize : Serialize Command := {
  serialize := Command_serialize;
  size := Command_size
}.

(** The [TryFrom<&RawXCommand>] conversions.  The full command's datetime
    parse can panic, so these return [option] ([None] = panic). *)
Definition FullCommand_try_from (raw : bytes) : option (result Command FormatError) :=
  match datetime_parse_items (slice raw 98 112) with
  | None => Some (Err (InvalidSlice (fst RawFullCommand_datetime_span)
                                    (snd RawFullCommand_datetime_span)))
  | Some p =>
      dt ← datetime_from_parsed p;
      Some (Ok (FullCommand (u32_from_be_bytes raw 2) (slice raw 6 70) dt))
  end.

(** [sized_deserialize] for a conversion that may panic. *)
Definition sized_deserialize_opt {T} (size : nat) (try_from : bytes -> option (result T FormatError))
    (buffer : bytes) : option (result (T * nat) ParseError) :=
  if (length buffer <? size)%nat then Some (Err (UnexpectedEnd size (length buffer)))
  else map_ok (fun x => (x, size)) ∘ map_err InvalidFormat <$> try_from (firstn size buffer).

(** [impl Deserialize for Command] *)
Definition Command_deserialize (buffer : bytes) : option (result (Command * nat) ParseError) :=
  if (length buffer <? 2)%nat then Some (Err (UnexpectedEnd 2 (length buffer))) else
  match PollType_try_from (u16_from_be_bytes buffer 0) with
  | Err e => Some (Err (InvalidFormat e))
  | Ok pt =>
      let body := skipn 2 buffer in
      let r :=
        match pt with
        | PEmpty => sized_deserialize_opt RawEmptyCommand_SIZE (fun _ => Some (Ok EmptyCommand)) body
        | PHostOnly => sized_deserialize_opt RawHostOnlyCommand_SIZE
                         (fun raw => Some (Ok (HostOnlyCommand (slice raw 6 70)))) body
        | PFull => sized_deserialize_opt RawFullCommand_SIZE FullCommand_try_from body
        | PReset => sized_deserialize_opt RawResetCommand_SIZE
                      (fun raw => Some (Ok (ResetCommand (u32_from_be_bytes raw 2) (slice raw 6 70)
                                                         (u32_from_be_bytes raw 74)))) body
        end in
      (fun r => map_err (fun e => parse_offset_by e 2)
                  (map_ok (fun '(c, n) => (c, (n + 2)%nat)) r)) <$> r
  end.

(** ** identity.rs *)

(** [Response(HashMap<String, String>)]: keys and values as their UTF-8
    bytes. *)
Abbreviation IdentityMap := (gmap (list Z) (list Z)).

Definition is_cont (b : Z) : bool := (128 <=? b) && (b <=? 191).

(** [core::str::from_utf8]'s validation: [None] when valid, otherwise
    [Some (valid_up_to, error_len)] with [error_len = None] for a sequence
    cut short by the end of the input. *)
Fixpoint utf8_check_from (fuel : nat) (i : nat) (bs : bytes) : option (nat * option nat) :=
  match fuel with
  | O => None
  | S fuel' =>
    match bs with
    | [] => None
    | b0 :: rest =>
      if b0 <? 128 then utf8_check_from fuel' (S i) rest
      else
        let width : nat :=
          if (194 <=? b0) && (b0 <=? 223) then 2%nat
          else if (224 <=? b0) && (b0 <=? 239) then 3%nat
          else if (240 <=? b0) && (b0 <=? 244) then 4%nat else 0%nat in
        let second_ok (b1 : Z) : bool :=
          match width with
          | 2%nat => is_cont b1
          | 3%nat =>
              if b0 =? 224 then (160 <=? b1) && (b1 <=? 191)
              else if b0 =? 237 then (128 <=? b1) && (b1 <=? 159)
              else is_cont b1
          | 4%nat =>
              if b0 =? 240 then (144 <=? b1) && (b1 <=? 191)
              else if b0 =? 244 then (128 <=? b1) && (b1 <=? 143)
              else is_cont b1
          | _ => false
          end in
        if (width =? 0)%nat then Some (i, Some 1%nat) else
        match rest with
        | [] => Some (i, None)
        | b1 :: rest1 =>
          if negb (second_ok b1) then Some (i, Some 1%nat)
          else if (width =? 2)%nat then utf8_check_from fuel' (i + 2)%nat rest1 else
          match rest1 with
          | [] => Some (i, None)
          | b2 :: rest2 =>
            if negb (is_cont b2) then Some (i, Some 2%nat)
            else if (width =? 3)%nat then utf8_check_from fuel' (i + 3)%nat rest2 else
            match rest2 with
            | [] => Some (i, None)
            | b3 :: rest3 =>
              if negb (is_cont b3) then Some (i, Some 3%nat)
              else utf8_check_from fuel' (i + 4)%nat rest3
            end
          end
        end
    end
  end.

Definition utf8_check (bs : bytes) : option (nat * option nat) :=
  utf8_check_from (length bs) 0 bs.

(** [str::split_terminator(';')]: split at every [;], dropping a trailing
    empty piece. *)
Fixpoint split_on (sep : Z) (cur : bytes) (bs : bytes) : list bytes :=
  match bs with
  | [] => [cur]
  | b :: bs' => if b =? sep then cur :: split_on sep [] bs' else split_on sep (cur ++ [b]) bs'
  end.

Definition split_terminator (sep : Z) (bs : bytes) : list bytes :=
  let pieces := split_on sep [] bs in
  match last pieces with
  | Some [] => removelast pieces
  | _ => pieces
  end.

(** [str::split_once(':')] *)
Fixpoint split_once (sep : Z) (bs : bytes) : option (bytes * bytes) :=
  match bs with
  | [] => None
  | b :: bs' =>
      if b =? sep then Some ([], bs')
      else (fun '(k, v) => (b :: k, v)) <$> split_once sep bs'
  end.

(** [collect::<HashMap<_, _>>()]: inserted in order, a later key wins. *)
Definition collect_map (items : list (bytes * bytes)) : IdentityMap :=
  foldl (fun m '(k, v) => <[k := v]> m) ∅ items.

(** [impl Deserialize for identity::Response]; [None] is a panic (the
    [valid_up_to() - 1] of a one-byte UTF-8 error at position 0). *)
Definition identity_deserialize (buffer0 : bytes) : option (result (IdentityMap * nat) ParseError) :=
  if (length buffer0 <? 2)%nat then Some (Err (UnexpectedEnd 2 (length buffer0))) else
  let identity_len := Z.to_nat (u16_from_be_bytes buffer0 0) in
  let buffer := skipn 2 buffer0 in
  if (identity_len <? 2)%nat then Some (Err (InvalidFormat (InvalidSlice 0 2))) else
  let identity_len := (identity_len - 2)%nat in
  if (length buffer <? identity_len)%nat
  then Some (Err (parse_offset_by (UnexpectedEnd identity_len (length buffer)) 2)) else
  let identity := firstn identity_len buffer in
  match utf8_check identity with
  | Some (up_to, Some len) =>
      if (1 <? len)%nat then Some (Err (InvalidFormat (InvalidSlice up_to (up_to + len))))
      else if (up_to =? 0)%nat then None
      else Some (Err (InvalidFormat (InvalidByte (byte_at buffer (up_to - 1)) (up_to - 1))))
  | Some (_, None) => Some (Err (UnexpectedEnd (identity_len + 1) identity_len))
  | None =>
      let items := omap (split_once 58) (split_terminator 59 identity) in
      Some (Ok (collect_map items, (identity_len + 2)%nat))
  end.

(** [Response::as_str_len] *)
Definition identity_as_str_len (m : IdentityMap) : nat :=
  map_fold (fun k v acc => (length k + length v + 2 + acc)%nat) 0%nat m.

(** [impl Serialize for identity::Response]: the length as a [u16] (an
    [io::Error] above [u16::MAX]), then [Display]'s [KEY:VALUE;] records.
    [HashMap]'s iteration order is unspecified; the map's own order is
    used. *)
Definition identity_serialize (m : IdentityMap) : option bytes :=
  let n := identity_as_str_len m in
  if (65535 <? Z.of_nat n) then None
  else Some (u16_to_be_bytes (Z.of_nat n)
             ++ concat ((fun '(k, v) => k ++ [58] ++ v ++ [59]) <$> map_to_list m)).

Definition identity_size (m : IdentityMap) : nat := (2 + identity_as_str_len m)%nat.

(** ** poll/command.rs: [Host::new] *)

(** A [char] is its Unicode scalar value. *)
Definition len_utf16 (c : Z) : nat := if c <? 65536 then 1 else 2.

Definition encode_utf16 (c : Z) : list Z :=
  if c <? 65536 then [c]
  else [55296 + Z.shiftr (c - 65536) 10; 56320 + Z.land (c - 65536) 1023].

(** [c.encode_utf16(&mut buf[start..])]: panics ([None]) when the slice is
    too short. *)
Definition write_units (buf : list Z) (start : nat) (units : list Z) : option (list Z) :=
  if (start + length units <=? length buf)%nat
  then Some (firstn start buf ++ units ++ skipn (start + length units) buf)
  else None.

(** [buf[a..b].fill(v)]: panics ([None]) on a bad range. *)
Definition fill_range (buf : list Z) (a b : nat) (v : Z) : option (list Z) :=
  if (a <=? b)%nat && (b <=? length buf)%nat
  then Some (firstn a buf ++ repeat v (b - a) ++ skipn b buf)
  else None.

(** [prev_len = (prev_len << 2) | (c.len_utf16() as u8)] on a [u8]. *)
Definition push_len (prev_len : Z) (l : nat) : Z :=
  Z.lor (Z.land (Z.shiftl prev_len 2) 255) (Z.of_nat l).

(** The [for c in host.as_ref().chars()] loop: the buffer, [cur_len],
    [prev_len] and [overflowing] when it ends. *)
Fixpoint host_chars_loop (cs : list Z) (buf : list Z) (cur_len : nat) (prev_len : Z)
    : option (list Z * nat * Z * bool) :=
  match cs with
  | [] => Some (buf, cur_len, prev_len, false)
  | c :: cs' =>
      let cur_start := cur_len in
      let cur_len := (cur_len + len_utf16 c)%nat in
      let prev_len := push_len prev_len (len_utf16 c) in
      if (length buf <? cur_len)%nat then Some (buf, cur_len, prev_len, true)
      else
        buf' ← write_units buf cur_start (encode_utf16 c);
        host_chars_loop cs' buf' cur_len prev_len
  end.

(** The [while cur_len > u16_buffer.len() - 3] loop.  It runs at most
    [34 + 4] rounds when it terminates at all: each round lowers [cur_len]
    until [prev_len] is [0], after which it would loop forever.  [None]
    is an exhausted fuel (divergence) or the [usize] underflow panic. *)
Fixpoint host_backoff (fuel : nat) (cur_len : nat) (prev_len : Z) : option nat :=
  match fuel with
  | O => None
  | S fuel' =>
      if (cur_len <=? 32 - 3)%nat then Some cur_len
      else
        let d := Z.to_nat (Z.land prev_len 3) in
        if (cur_len <? d)%nat then None
        else host_backoff fuel' (cur_len - d)%nat (Z.shiftr prev_len 2)
  end.

(** [Host::new]: 32 UTF-16 code units, each written big-endian. *)
Definition Host_new (s : list Z) : option Host :=
  match host_chars_loop s (repeat 0 32) 0 0 with
  | None => None
  | Some (buf, cur_len, prev_len, overflowing) =>
      buf ← (if overflowing then
               cur_len ← host_backoff 64 cur_len prev_len;
               buf ← fill_range buf cur_len (cur_len + 3) 46;
               fill_range buf (cur_len + 3) 32 0
             else Some buf);
      Some (concat (map u16_to_be_bytes buf))
  end.

(** The UTF-16 encoding of a string and its length in code units. *)
Definition utf16 (s : list Z) : list Z := concat (map encode_utf16 s).
Definition utf16_len (s : list Z) : nat := length (utf16 s).

(** The [k]-th 2-bit group of [prev_len], [k = 0] being the lowest. *)
Definition len_group (prev_len : Z) (k : nat) : Z :=
  Z.land (Z.shiftr prev_len (2 * Z.of_nat k)) 3.

(** [prev_len] holds, lowest group first, the last (up to four) lengths of
    [ls], the lengths of the characters read so far in reverse order. *)
Definition host_groups_ok (prev_len : Z) (ls : list nat) : Prop :=
  forall k, (k < 4)%nat -> (k < length ls)%nat -> len_group prev_len k = Z.of_nat (nth k ls 0%nat).


(** [size_of::<RawXCommand>()] of the variant a poll type selects. *)
Definition PollType_body_size (pt : PollType) : nat :=
  match pt with
  | PEmpty => RawEmptyCommand_SIZE | PHostOnly => RawHostOnlyCommand_SIZE
  | PFull => RawFullCommand_SIZE | PReset => RawResetCommand_SIZE
  end.

(** [Command::session_id], [Command::host], [Command::action_id] and
    [Command::datetime]. *)
Definition Command_session_id (c : Command) : option Z :=
  match c with FullCommand s _ _ | ResetCommand s _ _ => Some s | _ => None end.

Definition Command_host (c : Command) : option Host :=
  match c with
  | EmptyCommand => None
  | HostOnlyCommand h | FullCommand _ h _ | ResetCommand _ h _ => Some h
  end.

Definition Command_action_id (c : Command) : option Z :=
  match c with ResetCommand _ _ a => Some a | _ => None end.

Definition Command_datetime (c : Command) : option DateTime :=
  match c with FullCommand _ _ d => Some d | _ => None end.

(** [Host::into_buf]: the 64 bytes transmuted to 32 [u16]s, each then
    read with [u16::from_be], so unit [i] is bytes [2i] (high) and [2i+1]. *)
Fixpoint be_units (bs : bytes) : list Z :=
  match bs with
  | hi :: lo :: rest => Z.lor (Z.shiftl hi 8) lo :: be_units rest
  | _ => []
  end.

Definition Host_into_buf (h : Host) : list Z := be_units h.

(** ** [f32] arithmetic used by the backoff *)

(** An IEEE-754 single: [(-1)^neg * m * 2^e], an infinity, or NaN. *)
Inductive f32 :=
| F32Finite (neg : bool) (m : Z) (e : Z)
| F32Inf (neg : bool)
| F32NaN.

(** Round [(-1)^neg * m * 2^e] ([m >= 0]) to nearest, ties to even, on the
    grid of a 24-bit significand (subnormal grid [2^-149]); a rounded
    value of [2^128] or more overflows to infinity. *)
Definition f32_round (neg : bool) (m e : Z) : f32 :=
  if m =? 0 then F32Finite neg 0 0 else
  let u := Z.max (e + Z.log2 m - 23) (-149) in
  let '(m', e') :=
    if u <=? e then (m, e)
    else
      let sh := u - e in
      let q := Z.shiftr m sh in
      let r := m - Z.shiftl q sh in
      let half := Z.shiftl 1 (sh - 1) in
      ((if (half <? r) || ((r =? half) && Z.odd q) then q + 1 else q), u) in
  if 128 <=? Z.log2 m' + e' then F32Inf neg else F32Finite neg m' e'.

(** [n as f32] for a [u64] *)
Definition f32_of_u64 (n : Z) : f32 := f32_round false n 0.

(** [a * b] *)
Definition f32_mul (a b : f32) : f32 :=
  match a, b with
  | F32NaN, _ | _, F32NaN => F32NaN
  | F32Inf s1, F32Inf s2 => F32Inf (xorb s1 s2)
  | F32Inf s1, F32Finite s2 m _ | F32Finite s2 m _, F32Inf s1 =>
      if m =? 0 then F32NaN else F32Inf (xorb s1 s2)
  | F32Finite s1 m1 e1, F32Finite s2 m2 e2 => f32_round (xorb s1 s2) (m1 * m2) (e1 + e2)
  end.

Definition U64_MAX : Z := 2 ^ 64 - 1.

(** [x as u64]: truncation toward zero, saturating, NaN to [0]. *)
Definition f32_to_u64 (x : f32) : Z :=
  match x with
  | F32NaN => 0
  | F32Inf true => 0
  | F32Inf false => U64_MAX
  | F32Finite neg m e =>
      if neg then 0
      else Z.min U64_MAX (if 0 <=? e then m * 2 ^ e else m / 2 ^ (- e))
  end.

(** ** channel.rs *)

(** The channel's state: the socket is the world below. *)
Record Channel := { ch_sequence : Z }.

(** [Channel::new]: [sequence: Wrapping(0)] *)
Definition Channel_new : Channel := {| ch_sequence := 0 |}.

(** [Channel::reset_sequence] *)
Definition Channel_reset_sequence (ch : Channel) : Channel := {| ch_sequence := 0 |}.

(** The packet [Channel::send] puts on the wire for the payload. *)
Definition Channel_packet {T} `{Serialize T} (ch : Channel) (yt : PayloadType) (payload : T)
    : Packet T :=
  PacketBuilder_build (PacketBuilder_sequence (PacketBuilder_new ScannerCommand yt)
                         (ch_sequence ch)) payload.

(** [Channel::send], given whether [socket.send] succeeds: the serialized
    datagram (when sent) and the updated channel; [None] is the panic of
    [serialize_to_vec]'s [unwrap]. *)
Definition Channel_send_step {T} `{Serialize T} (ch : Channel) (yt : PayloadType) (payload : T)
    (sent_ok : bool) : option (bool * option bytes * Channel) :=
  buffer ← packet_serialize (Channel_packet ch yt payload);
  if sent_ok
  then Some (true, Some buffer, {| ch_sequence := (ch_sequence ch + 1) mod 2 ^ 16 |})
  else Some (false, None, ch).

(** The errors [anyhow] carries in the listener. *)
Inductive Error :=
| ESend                       (* socket send failed or its deadline expired *)
| ERecvIo                     (* socket recv failed or its deadline expired *)
| EParse (e : ParseError)
| ERemote (code : Z)          (* "remote peer returns error code" *)
| EInterruptDuringInit.       (* "unexpected interrupt during first poll" *)

(** [Channel::recv] once [socket.recv] returned [dgram], read into a
    [65536]-byte buffer. *)
Definition Channel_recv_datagram {T} `{Deserialize T} (dgram : bytes) : result T Error :=
  let buffer := firstn (Z.to_nat 65536) dgram in
  let? packet := map_err EParse (PacketHeaderOnly_parse buffer) in
  if negb ((error (pho_header packet) =? 0) || (0 <? payload_size (pho_header packet)))
  then Err (ERemote (error (pho_header packet)))
  else
    let? pk := map_err EParse (Packet_try_from (T := T) packet) in
    Ok (pk_payload pk).

(** ** poll/command.rs: [CommandBuilder] *)

Record CommandBuilder := {
  cb_poll_type : PollType;
  cb_session_id : option Z;
  cb_host : option Host;
  cb_action_id : option Z;
  cb_datetime : option DateTime
}.

Definition CommandBuilder_new (pt : PollType) : CommandBuilder :=
  {| cb_poll_type := pt; cb_session_id := None; cb_host := None;
     cb_action_id := None; cb_datetime := None |}.

Definition CommandBuilder_build (b : CommandBuilder) : option Command :=
  match cb_poll_type b with
  | PEmpty => Some EmptyCommand
  | PHostOnly => h ← cb_host b; Some (HostOnlyCommand h)
  | PFull =>
      s ← cb_session_id b; h ← cb_host b; d ← cb_datetime b; Some (FullCommand s h d)
  | PReset =>
      s ← cb_session_id b; h ← cb_host b; a ← cb_action_id b; Some (ResetCommand s h a)
  end.

(** ** poll.rs: the listener *)

Module State.
(** [enum State]; a [Duration] built by [Duration::from_secs] is its
    whole seconds. *)
Inductive t := Init | Poll | Backoff (secs : Z).
End State.

Record ListenConfig := {
  hostname : Host;
  initial_max_waiting : Z;
  backoff_factor : f32;
  backoff_maximum : Z
}.

(** The environment of the listener: the outcome of each [socket.send] in
    turn ([false]: an I/O error or the deadline expired), each datagram
    [socket.recv] yields in turn ([None]: an I/O error or the deadline),
    the datagrams put on the wire, the interrupts the external command was
    launched for, and the local clock. *)
Record World := {
  w_send_ok : list bool;
  w_recv : list (option bytes);
  w_wire : list bytes;
  w_launched : list Interrupt;
  w_now : DateTime
}.

(** [Listener] without its [state] (which [listen] updates) and [config]. *)
Record Listener := {
  l_channel : Channel;
  l_session_id : Z;
  l_world : World
}.

(** The listener's effects: state, errors, and panics ([None]). *)
Definition M (A : Type) : Type := Listener -> option (result A Error * Listener).

#[export] Instance M_ret : MRet M := fun A a l => Some (Ok a, l).
#[export] Instance M_bind : MBind M := fun A B k m l =>
  match m l with
  | Some (Ok a, l') => k a l'
  | Some (Err e, l') => Some (Err e, l')
  | None => None
  end.

Definition throw {A} (e : Error) : M A := fun l => Some (Err e, l).
Definition unwrap {A} (o : option A) : M A :=
  fun l => match o with Some a => Some (Ok a, l) | None => None end.
Definition get_session_id : M Z := fun l => Some (Ok (l_session_id l), l).
Definition set_session_id (s : Z) : M unit :=
  fun l => Some (Ok tt, {| l_channel := l_channel l; l_session_id := s; l_world := l_world l |}).
Definition get_now : M DateTime := fun l => Some (Ok (w_now (l_world l)), l).

Definition set_world (l : Listener) (ch : Channel) (w : World) : Listener :=
  {| l_channel := ch; l_session_id := l_session_id l; l_world := w |}.

(** [timeout(max_waiting, self.channel.send(payload_type, payload)).await?] *)
Definition send {T} `{Serialize T} (yt : PayloadType) (payload : T) : M unit := fun l =>
  let w := l_world l in
  let '(ok, rest) := match w_send_ok w with b :: r => (b, r) | [] => (false, []) end in
  match Channel_send_step (l_channel l) yt payload ok with
  | None => None
  | Some (true, Some buf, ch') =>
      Some (Ok tt, set_world l ch'
                     {| w_send_ok := rest; w_recv := w_recv w; w_wire := w_wire w ++ [buf];
                        w_launched := w_launched w; w_now := w_now w |})
  | Some (_, _, ch') =>
      Some (Err ESend, set_world l ch'
                         {| w_send_ok := rest; w_recv := w_recv w; w_wire := w_wire w;
                            w_launched := w_launched w; w_now := w_now w |})
  end.

(** [timeout(max_waiting, self.channel.recv()).await?] *)
Definition recv {T} `{Deserialize T} : M T := fun l =>
  let w := l_world l in
  let '(d, rest) := match w_recv w with d :: r => (d, r) | [] => (None, []) end in
  let l' := set_world l (l_channel l)
              {| w_send_ok := w_send_ok w; w_recv := rest; w_wire := w_wire w;
                 w_launched := w_launched w; w_now := w_now w |} in
  match d with
  | None => Some (Err ERecvIo, l')
  | Some dgram => Some (Channel_recv_datagram dgram, l')
  end.

Definition reset_sequence : M unit := fun l =>
  Some (Ok tt, set_world l (Channel_reset_sequence (l_channel l)) (l_world l)).

(** [ignore_err(self.launch(interrupt))]: the spawn is recorded, its
    outcome ignored. *)
Definition launch (i : Interrupt) : M unit := fun l =>
  let w := l_world l in
  Some (Ok tt, set_world l (l_channel l)
                 {| w_send_ok := w_send_ok w; w_recv := w_recv w; w_wire := w_wire w;
                    w_launched := w_launched w ++ [i]; w_now := w_now w |}).

Section Listen.
Variable config : ListenConfig.

(** [Listener::try_init]; the deadline only decides which operations
    fail, which the world fixes. *)
Definition try_init (max_waiting : Z) : M unit :=
  reset_sequence;;
  send Discover EmptyV;;
  _ ← recv (T := DiscoverResponse);
  command ← unwrap (CommandBuilder_build
                      {| cb_poll_type := PHostOnly; cb_session_id := None;
                         cb_host := Some (hostname config); cb_action_id := None;
                         cb_datetime := None |});
  send Poll command;;
  resp ← recv (T := PollResponse);
  match session_id resp with
  | Some s => set_session_id s
  | None => throw EInterruptDuringInit
  end.

(** The [State::Poll] arm of [Listener::next]. *)
Definition poll_round : M State.t :=
  now ← get_now;
  sid ← get_session_id;
  command ← unwrap (CommandBuilder_build
                      {| cb_poll_type := PFull; cb_session_id := Some sid;
                         cb_host := Some (hostname config); cb_action_id := None;
                         cb_datetime := Some now |});
  send Poll command;;
  resp ← recv (T := PollResponse);
  (match session_id resp with
   | Some s => set_session_id s
   | None => mret tt
   end);;
  (if status resp =? 32768 then
     (match interrupt resp with
      | Some i => launch i
      | None => mret tt
      end);;
     sid ← get_session_id;
     command ← unwrap (CommandBuilder_build
                         {| cb_poll_type := PReset; cb_session_id := Some sid;
                            cb_host := Some (hostname config);
                            cb_action_id := Some (default 0 (action_id resp));
                            cb_datetime := None |});
     send Poll command;;
     _ ← recv (T := PollResponse);
     mret tt
   else mret tt);;
  mret State.Poll.

(** [Listener::next] *)
Definition next (s : State.t) : M State.t :=
  match s with
  | State.Init => try_init (initial_max_waiting config);; mret State.Poll
  | State.Poll => poll_round
  | State.Backoff dur => try_init dur;; mret State.Poll
  end.

(** [Listener::transit_err] *)
Definition transit_err (s : State.t) : State.t :=
  match s with
  | State.Init => State.Backoff (initial_max_waiting config)
  | State.Poll => State.Init
  | State.Backoff dur =>
      State.Backoff (Z.min (backoff_maximum config)
                       (f32_to_u64 (f32_mul (f32_of_u64 dur) (backoff_factor config))))
  end.

(** One turn of the [loop] in [listen]. *)
Definition listen_step (s : State.t) (l : Listener) : option (State.t * Listener) :=
  match next s l with
  | Some (Ok s', l') => Some (s', l')
  | Some (Err _, l') => Some (transit_err s, l')
  | None => None
  end.
End Listen.

(** ** Concrete inputs used below *)

(** ASCII text as bytes. *)
Definition str_bytes (s : String.string) : bytes :=
  map (fun c => Z.of_nat (Ascii.nat_of_ascii c)) (String.list_ascii_of_string s).

(** A [Command] as the source can build it: a 64-byte host, [u32] ids,
    and for a full command a datetime that [PrimitiveDateTime] can hold
    whose year formats in four digits. *)
Definition Command_valid (c : Command) : Prop :=
  match c with
  | EmptyCommand => True
  | HostOnlyCommand h => length h = 64%nat
  | FullCommand s h d =>
      0 <= s < 2 ^ 32 /\ length h = 64%nat /\ datetime_valid d /\ 0 <= year d
  | ResetCommand s h a => 0 <= s < 2 ^ 32 /\ length h = 64%nat /\ 0 <= a < 2 ^ 32
  end.

(** The identity payload of the identity-parse scenario:
    [00 20 "MFG:Canon;MDL:Dummy;CLS:IMAGE;"]. *)
Definition identity_example_bytes : bytes :=
  [0; 32] ++ str_bytes "MFG:Canon;MDL:Dummy;CLS:IMAGE;"%string.

Definition identity_example_map : IdentityMap :=
  list_to_map [(str_bytes "MFG"%string, str_bytes "Canon"%string);
               (str_bytes "MDL"%string, str_bytes "Dummy"%string);
               (str_bytes "CLS"%string, str_bytes "IMAGE"%string)].

(** A configuration with [backoff_factor = 1.0] and no effective maximum. *)
Definition backoff_example_config : ListenConfig :=
  {| hostname := repeat 0 64; initial_max_waiting := 5;
     backoff_factor := F32Finite false 1 0; backoff_maximum := U64_MAX |}.

(** A configuration [main] builds from [--max-waiting 16777217] with the
    default [--backoff-factor 2.0] ([2 * 2^0]) and the largest
    [--backoff-maximum]. *)
Definition backoff_factor2_config : ListenConfig :=
  {| hostname := repeat 0 64; initial_max_waiting := 16777217;
     backoff_factor := F32Finite false 2 0; backoff_maximum := U64_MAX |}.

(** The interrupt of the interrupt-detection scenario: colour, A4, JPEG,
    300 dpi, flatbed, no feeder. *)
Definition interrupt_example : Interrupt :=
  {| color_mode := Color; isize := A4; format := Jpeg; dpi := D300; source := Flatbed;
     feeder_type := None; feeder_orientation := None |}.

(** Its poll response: status [0x00008000], action id 7. *)
Definition interrupt_response_bytes : bytes :=
  u32_to_be_bytes 32768 ++ u32_to_be_bytes 0 ++ [0; 0; 0; 20] ++ u32_to_be_bytes 7
  ++ interrupt_to_raw interrupt_example.

(** A scanner response header for a poll reply with error code 1 and no
    payload. *)
Definition remote_error_header : Header :=
  {| packet_type := ScannerResponse; payload_type := Poll; error := 1; sequence := 0;
     job_id := None; payload_size := 0 |}.

Definition remote_error_dgram : bytes := header_to_raw remote_error_header.

(** ** A run of [Channel::send] calls *)

(** One call of [Channel::send]: a payload of any serializable type, its
    payload type, and whether [socket.send] succeeds. *)
Record SendAttempt := {
  sa_T : Type;
  sa_ser : Serialize sa_T;
  sa_yt : PayloadType;
  sa_payload : sa_T;
  sa_ok : bool
}.

Definition sa_serializes (a : SendAttempt) : Prop :=
  is_Some (@serialize _ (sa_ser a) (sa_payload a)).

(** The sends in order on one channel: the final channel and the datagrams
    put on the wire ([None] is a panic). *)
Fixpoint run_sends (ch : Channel) (atts : list SendAttempt) : option (Channel * list bytes) :=
  match atts with
  | [] => Some (ch, [])
  | a :: rest =>
      match @Channel_send_step _ (sa_ser a) ch (sa_yt a) (sa_payload a) (sa_ok a) with
      | None => None
      | Some (_, sent, ch') =>
          match run_sends ch' rest with
          | None => None
          | Some (ch'', wire) => Some (ch'', from_option (fun b => [b]) [] sent ++ wire)
          end
      end
  end.

Fixpoint count_ok (atts : list SendAttempt) : nat :=
  match atts with
  | [] => 0%nat
  | a :: rest => ((if sa_ok a then 1 else 0) + count_ok rest)%nat
  end.

(** Two sends on a new channel: a discover that goes out, then one whose
    socket send fails, then a host-only poll that goes out. *)
Definition send_example : list SendAttempt :=
  [{| sa_T := Empty; sa_ser := _; sa_yt := Discover; sa_payload := EmptyV; sa_ok := true |};
   {| sa_T := Empty; sa_ser := _; sa_yt := Discover; sa_payload := EmptyV; sa_ok := false |};
   {| sa_T := Command; sa_ser := _; sa_yt := Poll; sa_payload := HostOnlyCommand (repeat 0 64);
      sa_ok := true |}].

(** A poll reply with status [0x00018000]: bit [0x8000] and one more. *)
Definition masked_response : PollResponse :=
  {| status := 98304; session_id := None; action_id := Some 7;
     interrupt := Some interrupt_example |}.

Definition masked_dgram : bytes :=
  header_to_raw {| packet_type := ScannerResponse; payload_type := Poll; error := 0;
                   sequence := 0; job_id := None; payload_size := 36 |}
  ++ u32_to_be_bytes 98304 ++ u32_to_be_bytes 0 ++ [0; 0; 0; 20] ++ u32_to_be_bytes 7
  ++ interrupt_to_raw interrupt_example.

Definition masked_listener : Listener :=
  {| l_channel := Channel_new; l_session_id := 42;
     l_world := {| w_send_ok := [true]; w_recv := [Some masked_dgram]; w_wire := [];
                   w_launched := [];
                   w_now := {| year := 2024; month := 5; day := 17; hour := 9;
                               minute := 30; second := 0; nanosecond := 0 |} |} |}.

(** The enumerated fields of a [RawInterrupt], at their offsets in it. *)
Inductive IField :=
| FColorMode | FSource | FFeederType | FSize | FFormat | FDpi | FFeederOrientation.

Definition ifield_offset (f : IField) : nat :=
  match f with
  | FColorMode => 7 | FSource => 8 | FFeederType => 9 | FSize => 10 | FFormat => 11
  | FDpi => 12 | FFeederOrientation => 16
  end.

(** [b] is no value of the field; [0] stands for an absent feeder. *)
Definition ifield_invalid (f : IField) (b : Z) : Prop :=
  match f with
  | FColorMode => forall x, ColorMode_to_u8 x <> b
  | FSource => forall x, Source_to_u8 x <> b
  | FFeederType => b <> 0 /\ forall x, FeederType_to_u8 x <> b
  | FSize => forall x, Size_to_u8 x <> b
  | FFormat => forall x, Format_to_u8 x <> b
  | FDpi => forall x, DPI_to_u8 x <> b
  | FFeederOrientation => b <> 0 /\ forall x, FeederOrientation_to_u8 x <> b
  end.

(** ** Valid values and reserved bytes of the encoded records *)

(** A [Header] the Rust type can hold: [error] a [u8], [sequence] a [u16],
    [job_id] an [Option<NonZeroU16>], [payload_size] a [u32]. *)
Definition Header_valid (h : Header) : Prop :=
  0 <= error h < 256 /\ 0 <= sequence h < 2 ^ 16 /\
  (forall j, job_id h = Some j -> 0 < j < 2 ^ 16) /\ 0 <= payload_size h < 2 ^ 32.

(** A discover response whose address bytes have the length of their kind. *)
Definition DiscoverResponse_valid (r : DiscoverResponse) : Prop :=
  length (MacAddr_bytes (mac_addr r)) = MacAddr_size (mac_addr r) /\
  length (IpAddr_bytes (ip_addr r)) = IpAddr_size (ip_addr r).

(** The [pad_*] and [unk_*] fields of the raw commands, with the type tag
    in front: the zero-filled ones and the constants [00 00 00 14] and
    [00 00 00 10]. *)
Definition Command_reserved (c : Command) (bs : bytes) : Prop :=
  match c with
  | EmptyCommand => slice bs 2 80 = repeat 0 78
  | HostOnlyCommand _ => slice bs 2 8 = repeat 0 6 /\ slice bs 72 76 = repeat 0 4
  | FullCommand _ _ _ =>
      slice bs 2 4 = repeat 0 2 /\ slice bs 72 76 = [0; 0; 0; 20] /\ slice bs 76 96 = repeat 0 20
      /\ slice bs 96 100 = [0; 0; 0; 16] /\ slice bs 114 116 = repeat 0 2
  | ResetCommand _ _ _ =>
      slice bs 2 4 = repeat 0 2 /\ slice bs 72 76 = [0; 0; 0; 20] /\ slice bs 80 100 = repeat 0 20
  end.

(** A response of the identity round trip: [{"A": "B"}]. *)
Definition identity_rt_map : IdentityMap := {[ [65] := [66] ]}.

(** A full poll command whose timestamp has a nanosecond part. *)
Definition nanos_datetime : DateTime :=
  {| year := 2024; month := 5; day := 17; hour := 9; minute := 30; second := 0; nanosecond := 1 |}.

Definition nanos_command : Command := FullCommand 7 (repeat 0 64) nanos_datetime.



(** [interrupt_response_bytes] with every byte the decoder skips set to 9. *)
Definition reserved_variant_bytes : bytes :=
  [0; 0; 128; 0; 9; 9; 9; 9; 9; 9; 9; 9; 0; 0; 0; 7; 9; 9; 9; 9; 9; 9; 9;
   1; 1; 0; 1; 1; 3; 9; 9; 9; 0; 9; 9; 9].

(** A discover reply and a poll reply granting session 5. *)
Definition init_discover_dgram : bytes :=
  header_to_raw {| packet_type := ScannerResponse; payload_type := Discover; error := 0;
                   sequence := 0; job_id := None; payload_size := 16 |}
  ++ [0; 1; 8; 0; 6; 4] ++ [0; 1; 2; 3; 4; 5] ++ [192; 168; 1; 2].

Definition init_session_response : PollResponse :=
  {| status := 0; session_id := Some 5; action_id := None; interrupt := None |}.

Definition init_poll_dgram : bytes :=
  header_to_raw {| packet_type := ScannerResponse; payload_type := Poll; error := 0;
                   sequence := 1; job_id := None; payload_size := 36 |}
  ++ u32_to_be_bytes 0 ++ u32_to_be_bytes 5 ++ repeat 0 28.

Definition init_listener : Listener :=
  {| l_channel := {| ch_sequence := 7 |}; l_session_id := 42;
     l_world := {| w_send_ok := [true; true]; w_recv := [Some init_discover_dgram; Some init_poll_dgram];
                   w_wire := []; w_launched := [];
                   w_now := {| year := 2024; month := 5; day := 17; hour := 9;
                               minute := 30; second := 0; nanosecond := 0 |} |} |}.


(** * Lemmas *)

Lemma digits_length (w : nat) (n : Z) : length (digits w n) = w.
Proof.
  revert n; induction w as [|w IH]; intros n; [reflexivity|].
  cbn [digits]. rewrite length_app, IH. simpl. lia.
Qed.


Lemma datetime_format_some (d : DateTime) :
  0 <= year d -> exists bs, datetime_format d = Some bs.
Proof.
  intros H. unfold datetime_format. destruct (Z.ltb_spec (year d) 0); [lia|]. eauto.
Qed.

(** Lengths of concatenated buffers. *)
Ltac len_simpl :=
  repeat progress (cbn [length app repeat firstn skipn]; rewrite ?length_app, ?repeat_length).

(** ** Big-endian integers *)

Lemma lor_shiftl_low (a b : Z) (n : Z) :
  0 <= n -> 0 <= b < 2 ^ n -> Z.lor (Z.shiftl a n) b = a * 2 ^ n + b.
Proof.
  intros Hn Hb. rewrite Z.shiftl_mul_pow2 by lia.
  rewrite <- Z.lxor_lor, <- Z.add_nocarry_lxor; [reflexivity| |];
    apply Z.bits_inj'; intros i Hi; rewrite Z.land_spec, Z.bits_0;
    destruct (Z.lt_ge_cases i n);
    try (rewrite Z.mul_pow2_bits_low by lia; reflexivity);
    rewrite <- (Z.mod_small b (2 ^ n)) by lia;
    rewrite Z.mod_pow2_bits_high by lia; apply andb_false_r.
Qed.

Lemma land_255 (v : Z) : Z.land v 255 = v mod 256.
Proof. change 255 with (Z.ones 8). rewrite Z.land_ones by lia. reflexivity. Qed.

Lemma byte_range (v : Z) : 0 <= Z.land v 255 < 256.
Proof. rewrite land_255. apply Z.mod_pos_bound. lia. Qed.

Lemma u16_of_bytes (hi lo : Z) :
  0 <= lo < 256 -> Z.lor (Z.shiftl hi 8) lo = hi * 256 + lo.
Proof. intros H. rewrite lor_shiftl_low by (cbn; lia). reflexivity. Qed.

Lemma u16_roundtrip (v : Z) (rest : bytes) :
  0 <= v < 2 ^ 16 -> u16_from_be_bytes (u16_to_be_bytes v ++ rest) 0 = v.
Proof.
  intros Hv. unfold u16_from_be_bytes, byte_at. cbn [nth u16_to_be_bytes app Nat.add].
  rewrite u16_of_bytes by apply byte_range.
  rewrite !land_255, Z.shiftr_div_pow2 by lia. cbn in Hv |- *. Z.div_mod_to_equations. lia.
Qed.

Lemma u32_roundtrip (v : Z) (rest : bytes) :
  0 <= v < 2 ^ 32 -> u32_from_be_bytes (u32_to_be_bytes v ++ rest) 0 = v.
Proof.
  intros Hv. unfold u32_from_be_bytes, byte_at. cbn [nth u32_to_be_bytes app Nat.add].
  rewrite !land_255, !Z.shiftr_div_pow2 by lia.
  rewrite (lor_shiftl_low _ (v mod 256)) by (cbn; Z.div_mod_to_equations; lia).
  rewrite (lor_shiftl_low _ (_ * 2 ^ 8 + _)) by (cbn; Z.div_mod_to_equations; lia).
  rewrite (lor_shiftl_low _ (_ * 2 ^ 16 + _)) by (cbn; Z.div_mod_to_equations; lia).
  cbn in Hv |- *. Z.div_mod_to_equations. lia.
Qed.

(** ** The poll state machine *)

Lemma bind_ok_inv {A B} (k : A -> M B) (m : M A) (l l'' : Listener) (b : B) :
  (x ← m; k x) l = Some (Ok b, l'') ->
  exists a l', m l = Some (Ok a, l') /\ k a l' = Some (Ok b, l'').
Proof.
  unfold mbind, M_bind. destruct (m l) as [[[a|e] l']|]; intros H; [eauto|discriminate..].
Qed.

Lemma bind_ok_last {A B} (m : M A) (v : B) (l l' : Listener) (b : B) :
  (m ;; mret v) l = Some (Ok b, l') -> b = v.
Proof.
  intros H. apply bind_ok_inv in H as (a & l1 & _ & H').
  unfold mret, M_ret in H'. congruence.
Qed.

(** Below [2^24] a [u64] converts to [f32] exactly, and a product that
    stays below [2^24] is exact too: then the new backoff is the floor of
    the real product. *)
Ltac peel_ok H :=
  let a := fresh "a" in let l1 := fresh "l" in let Hm := fresh "Hm" in let Hk := fresh "Hk" in
  apply bind_ok_inv in H as (a & l1 & Hm & Hk); clear H; rename Hk into H.

Lemma next_ok_poll (config : ListenConfig) (s s' : State.t) (l l' : Listener) :
  next config s l = Some (Ok s', l') -> s' = State.Poll.
Proof.
  destruct s; cbn [next]; try apply bind_ok_last.
  unfold poll_round. intros H. do 6 peel_ok H. eapply bind_ok_last. exact H.
Qed.

Lemma f32_backoff_exact (d m e : Z) :
  0 <= d < 2 ^ 24 -> 0 <= m -> -149 <= e <= 0 -> d * m < 2 ^ 24 ->
  f32_to_u64 (f32_mul (f32_of_u64 d) (F32Finite false m e)) = (d * m) / 2 ^ (- e).
Proof.
  intros [Hd Hd24'] Hm He Hdm.
  unfold f32_of_u64, f32_round at 1.
  destruct (Z.eqb_spec d 0) as [->|Hd0].
  - cbn [f32_mul xorb]. unfold f32_round. rewrite Z.mul_0_l, Z.eqb_refl.
    cbn. rewrite Z.div_0_l; [reflexivity|]. apply Z.pow_nonzero; lia.
  - assert (Hlog : Z.log2 d <= 23).
    { assert (Z.log2 d < 24) by (apply Z.log2_lt_pow2; lia). lia. }
    replace (Z.max (0 + Z.log2 d - 23) (-149) <=? 0) with true
      by (symmetry; apply Z.leb_le; lia).
    replace (128 <=? Z.log2 d + 0) with false by (symmetry; apply Z.leb_gt; lia).
    cbn [f32_mul xorb]. rewrite Z.add_0_l. unfold f32_round.
    destruct (Z.eqb_spec (d * m) 0) as [Hz|Hz].
    + rewrite Hz. cbn. rewrite Z.div_0_l; [reflexivity|]. apply Z.pow_nonzero; lia.
    + assert (Hl2 : Z.log2 (d * m) <= 23).
      { assert (Z.log2 (d * m) < 24) by (apply Z.log2_lt_pow2; lia). lia. }
      assert (Hl0 : 0 <= Z.log2 (d * m)) by apply Z.log2_nonneg.
      replace (Z.max (e + Z.log2 (d * m) - 23) (-149) <=? e) with true
        by (symmetry; apply Z.leb_le; lia).
      replace (128 <=? Z.log2 (d * m) + e) with false by (symmetry; apply Z.leb_gt; lia).
      unfold f32_to_u64.
      assert (Hq : 0 <= d * m / 2 ^ (- e) <= d * m).
      { split; [apply Z.div_pos; [lia|apply Z.pow_pos_nonneg; lia]|].
        apply Z.div_le_upper_bound; [apply Z.pow_pos_nonneg; lia|].
        assert (1 <= 2 ^ (- e)) by (apply Z.pow_le_mono_r with (a := 2) (b := 0) (c := - e); lia).
        nia. }
      destruct (Z.leb_spec 0 e).
      * assert (e = 0) as -> by lia. cbn. unfold U64_MAX. rewrite Z.div_1_r. lia.
      * unfold U64_MAX. assert (2 ^ 24 < 2 ^ 64 - 1) by (cbn; lia). lia.
Qed.

(** ** Buffers *)

Lemma firstn_exact (n : nat) (buf : bytes) : length buf = n -> firstn n buf = buf.
Proof. intros <-. apply firstn_all. Qed.

Lemma slice_to_end (buf : bytes) (a b : nat) :
  length buf = b -> (a <= b)%nat -> slice buf a b = skipn a buf.
Proof.
  intros Hl Hab. unfold slice. apply firstn_exact. rewrite length_skipn. lia.
Qed.

(** ** Received datagrams *)

Lemma byte_at_nonneg (buf : bytes) (i : nat) :
  Forall (fun b => 0 <= b) buf -> 0 <= byte_at buf i.
Proof.
  unfold byte_at. revert i; induction buf as [|b buf IH]; intros i Hf.
  - destruct i; reflexivity.
  - inversion Hf; subst. destruct i; [assumption|]. apply IH; assumption.
Qed.

Lemma u32_from_be_bytes_nonneg (buf : bytes) (i : nat) :
  Forall (fun b => 0 <= b) buf -> 0 <= u32_from_be_bytes buf i.
Proof.
  intros Hf. unfold u32_from_be_bytes.
  repeat (apply Z.lor_nonneg; split); rewrite ?Z.shiftl_nonneg; apply byte_at_nonneg; assumption.
Qed.

Lemma header_try_from_payload_size (raw : bytes) (h : Header) :
  header_try_from raw = Ok h -> payload_size h = u32_from_be_bytes raw 12.
Proof.
  unfold header_try_from, bind, map_err. repeat case_match; intros; simplify_eq; reflexivity.
Qed.

Lemma PacketHeaderOnly_parse_payload_size (buf : bytes) (p : PacketHeaderOnly) :
  Forall (fun b => 0 <= b) buf -> PacketHeaderOnly_parse buf = Ok p ->
  0 <= payload_size (pho_header p).
Proof.
  intros Hf. unfold PacketHeaderOnly_parse, header_deserialize, sized_deserialize, bind, map_ok, map_err.
  destruct (length buf <? RawHeader_SIZE)%nat; [discriminate|].
  destruct (header_try_from (firstn RawHeader_SIZE buf)) as [h|e] eqn:E; [|discriminate].
  case_match; intros; simplify_eq. cbn.
  rewrite (header_try_from_payload_size _ _ E).
  apply u32_from_be_bytes_nonneg, Forall_take, Hf.
Qed.

(** ** Sequence numbers *)

Lemma header_sequence_field (h : Header) (rest : bytes) :
  0 <= sequence h < 2 ^ 16 -> u16_from_be_bytes (header_to_raw h ++ rest) 8 = sequence h.
Proof. intros Hv. exact (u16_roundtrip (sequence h) [] Hv). Qed.

Lemma run_sends_spec (atts : list SendAttempt) (ch : Channel) :
  0 <= ch_sequence ch < 2 ^ 16 -> Forall sa_serializes atts ->
  exists ch' wire, run_sends ch atts = Some (ch', wire) /\
    ch_sequence ch' = (ch_sequence ch + Z.of_nat (count_ok atts)) mod 2 ^ 16 /\
    length wire = count_ok atts /\
    forall i, (i < count_ok atts)%nat ->
      u16_from_be_bytes (nth i wire []) 8 = (ch_sequence ch + Z.of_nat i) mod 2 ^ 16.
Proof.
  revert ch; induction atts as [|a atts IH]; intros ch Hch Hser.
  - exists ch, []. cbn. rewrite Z.add_0_r, Z.mod_small by lia. repeat split; intros; lia.
  - inversion Hser as [|? ? [pl Hpl] Hrest]; subst.
    cbn [run_sends]. unfold Channel_send_step, packet_serialize, Channel_packet.
    cbn [pk_payload pk_header PacketBuilder_build]. rewrite Hpl. cbn [mbind option_bind].
    destruct (sa_ok a) eqn:Hok.
    + destruct (IH {| ch_sequence := (ch_sequence ch + 1) mod 2 ^ 16 |}) as (ch' & wire & Hrun & Hseq & Hlen & Hnth);
        [cbn; apply Z.mod_pos_bound; lia|exact Hrest|].
      rewrite Hrun. eexists _, _. split; [reflexivity|].
      cbn [count_ok]. rewrite Hok. cbn [ch_sequence] in Hseq.
      split; [|split].
      * rewrite Hseq, Zplus_mod_idemp_l. f_equal. lia.
      * cbn. rewrite Hlen. reflexivity.
      * intros [|i] Hi; cbn [from_option app nth].
        -- rewrite header_sequence_field by (cbn; lia). cbn. rewrite Z.add_0_r, Z.mod_small; lia.
        -- rewrite Hnth by lia. cbn [ch_sequence]. rewrite Zplus_mod_idemp_l. f_equal. lia.
    + destruct (IH ch) as (ch' & wire & Hrun & Hseq & Hlen & Hnth); [exact Hch|exact Hrest|].
      rewrite Hrun. eexists _, _. split; [reflexivity|].
      cbn [count_ok]. rewrite Hok. cbn [from_option app]. auto.
Qed.

(** ** The listener's footprint *)

Definition wire_of (l : Listener) : list bytes := w_wire (l_world l).
Definition launched_of (l : Listener) : list Interrupt := w_launched (l_world l).

Lemma bind_inv {A B} (k : A -> M B) (m : M A) (l l'' : Listener) (res : result B Error) :
  (x ← m; k x) l = Some (res, l'') ->
  (exists e, m l = Some (Err e, l'') /\ res = Err e) \/
  (exists a l', m l = Some (Ok a, l') /\ k a l' = Some (res, l'')).
Proof.
  unfold mbind, M_bind. destruct (m l) as [[[a|e] l']|]; intros H; [right; eauto|left|discriminate].
  injection H as <- <-. eauto.
Qed.

Lemma send_footprint {T} `{Serialize T} (yt : PayloadType) (p : T) (l l' : Listener)
    (res : result unit Error) :
  send yt p l = Some (res, l') ->
  launched_of l' = launched_of l /\ w_recv (l_world l') = w_recv (l_world l) /\
  (wire_of l' = wire_of l \/ exists b, wire_of l' = wire_of l ++ [b]).
Proof.
  unfold send, launched_of, wire_of.
  repeat case_match; intros; simplify_eq; cbn; eauto.
Qed.

Lemma recv_footprint {T} `{Deserialize T} (l l' : Listener) (res : result T Error) :
  recv (T := T) l = Some (res, l') ->
  launched_of l' = launched_of l /\ wire_of l' = wire_of l /\
  (forall x, res = Ok x -> exists dg, head (w_recv (l_world l)) = Some (Some dg) /\
                                      Channel_recv_datagram (T := T) dg = Ok x).
Proof.
  unfold recv, launched_of, wire_of.
  destruct (w_recv (l_world l)) as [|[dg|] rest]; intros [= <- <-]; cbn;
    (split; [reflexivity|]); (split; [reflexivity|]); intros x Hx; try discriminate; eauto.
Qed.

Lemma poll_response_try_from_interrupt (raw : bytes) (r : PollResponse) :
  poll_response_try_from raw = Ok r -> Z.land (status r) 32768 <> 0 ->
  session_id r = None /\ exists i, interrupt r = Some i.
Proof.
  unfold poll_response_try_from, bind.
  destruct (negb (Z.land (u32_from_be_bytes raw 0) 32768 =? 0)) eqn:Hb.
  - destruct (interrupt_try_from (skipn 16 raw)); intros H; [|discriminate].
    injection H as <-. cbn. eauto.
  - intros [= <-] Hs. cbn in Hs. apply Z.eqb_neq in Hs. rewrite Hs in Hb. discriminate.
Qed.

Lemma recv_poll_response_interrupt (dg : bytes) (r : PollResponse) :
  Channel_recv_datagram (T := PollResponse) dg = Ok r -> Z.land (status r) 32768 <> 0 ->
  session_id r = None /\ exists i, interrupt r = Some i.
Proof.
  unfold Channel_recv_datagram, bind, map_err.
  destruct (PacketHeaderOnly_parse _) as [p|]; [|discriminate].
  intros H Hs. case_match; [discriminate H|].
  destruct (Packet_try_from p) as [pk|] eqn:Ep; [|discriminate H]. injection H as <-.
  unfold Packet_try_from, bind in Ep. cbn [deserialize PollResponse_Deserialize] in Ep.
  unfold poll_response_deserialize, sized_deserialize, map_ok, map_err in Ep.
  destruct (length (pho_payload p) <? RawResponse_SIZE)%nat; [discriminate Ep|].
  destruct (poll_response_try_from _) eqn:E; [|discriminate Ep].
  injection Ep as <-. cbn in Hs |- *. eapply poll_response_try_from_interrupt; eassumption.
Qed.

Ltac pure_step H :=
  let a := fresh "a" in let l1 := fresh "l" in let He := fresh "He" in
  apply bind_inv in H as [(? & He & ?)|(a & l1 & He & H)];
  [cbn in He; discriminate He|cbn in He; injection He; clear He; intros; subst].

Lemma wire_step (l l' : Listener) :
  (wire_of l' = wire_of l \/ exists b, wire_of l' = wire_of l ++ [b]) ->
  (length (wire_of l') <= S (length (wire_of l)))%nat.
Proof. intros [->|[b ->]]; [|rewrite length_app; cbn]; lia. Qed.

(** A poll round whose first reply is not a status-[0x8000] poll response
    launches nothing and puts at most one packet on the wire. *)
Lemma poll_round_quiet (config : ListenConfig) (l l' : Listener) (res : result State.t Error) :
  next config State.Poll l = Some (res, l') ->
  (exists dg r, head (w_recv (l_world l)) = Some (Some dg) /\
                Channel_recv_datagram (T := PollResponse) dg = Ok r /\ status r = 32768) \/
  (launched_of l' = launched_of l /\ (length (wire_of l') <= S (length (wire_of l)))%nat).
Proof.
  intros H. cbn [next] in H. unfold poll_round in H.
  pure_step H. pure_step H. pure_step H.
  apply bind_inv in H as [(e & He & ->)|(u & l2 & He & H)].
  { apply send_footprint in He as (Hl & _ & Hw). rewrite Hl. right. split; [reflexivity|].
    apply wire_step, Hw. }
  apply send_footprint in He as (Hl2 & Hq2 & Hw2). apply wire_step in Hw2.
  apply bind_inv in H as [(e & He & ->)|(r & l3 & He & H)].
  { apply recv_footprint in He as (Hl & Hw & _). rewrite Hl, Hw, Hl2. auto. }
  apply recv_footprint in He as (Hl3 & Hw3 & Hdg).
  destruct (Hdg r eq_refl) as (dg & Hhead & Hdec). rewrite Hq2 in Hhead.
  apply bind_inv in H as [(e & He & ->)|(u' & l4 & He & H)];
    [destruct (session_id r); discriminate He|].
  assert (Hl4 : launched_of l4 = launched_of l3 /\ wire_of l4 = wire_of l3)
    by (destruct (session_id r); cbn in He; injection He; intros; subst; auto).
  destruct (Z.eqb_spec (status r) 32768) as [Hs|Hs]; [left; eauto|].
  apply bind_inv in H as [(e & He5 & ->)|(u'' & l5 & He5 & H)]; [discriminate He5|].
  cbn in He5, H. injection He5; injection H; intros; subst.
  destruct Hl4 as [-> ->]. rewrite Hl3, Hw3, Hl2. auto.
Qed.

Lemma send_step_ok {T} `{Serialize T} (ch : Channel) (yt : PayloadType) (p : T) (bs : bytes) :
  serialize p = Some bs ->
  exists buf, Channel_send_step ch yt p true =
              Some (true, Some buf, {| ch_sequence := (ch_sequence ch + 1) mod 2 ^ 16 |}).
Proof.
  intros Hs. unfold Channel_send_step, packet_serialize, Channel_packet, PacketBuilder_build.
  cbn [pk_payload]. rewrite Hs. eexists. reflexivity.
Qed.

Lemma full_command_serializes (s : Z) (h : Host) (d : DateTime) :
  0 <= year d -> exists bs, serialize (FullCommand s h d) = Some bs.
Proof.
  intros Hy. destruct (datetime_format_some d Hy) as [bs Hbs].
  cbn [serialize Command_Serialize]. unfold Command_serialize, FullCommand_to_raw.
  rewrite Hbs. eexists. reflexivity.
Qed.

(** A poll round whose reply has bit [0x8000] set with other bits: the
    round succeeds, launches nothing, sends only the poll command and keeps
    the session id. *)
Lemma poll_round_masked (config : ListenConfig) (l : Listener) (dg : bytes) (r : PollResponse) :
  head (w_send_ok (l_world l)) = Some true -> 0 <= year (w_now (l_world l)) ->
  head (w_recv (l_world l)) = Some (Some dg) ->
  Channel_recv_datagram (T := PollResponse) dg = Ok r ->
  status r <> 32768 -> session_id r = None ->
  exists l', next config State.Poll l = Some (Ok State.Poll, l') /\
    launched_of l' = launched_of l /\
    length (wire_of l') = S (length (wire_of l)) /\
    l_session_id l' = l_session_id l.
Proof.
  intros Hok Hy Hq Hdec Hs Hsid.
  destruct l as [ch sid [so rq wire la now]]; cbn in Hok, Hy, Hq.
  destruct so as [|b so]; [discriminate Hok|]. injection Hok as ->.
  destruct rq as [|d rq]; [discriminate Hq|]. injection Hq as ->.
  destruct (full_command_serializes sid (hostname config) now Hy) as [bs Hbs].
  destruct (send_step_ok ch Poll _ bs Hbs) as [buf Hsend].
  cbn [next]. unfold poll_round.
  unfold mbind, M_bind, mret, M_ret, get_now, get_session_id, unwrap, send, recv.
  cbn -[Channel_send_step Channel_recv_datagram].
  rewrite Hsend. cbn -[Channel_recv_datagram]. rewrite Hdec, Hsid.
  apply Z.eqb_neq in Hs. rewrite Hs.
  eexists. split; [reflexivity|]. unfold launched_of, wire_of. cbn.
  rewrite length_app. cbn. split; [reflexivity|]. split; [lia|reflexivity].
Qed.

(** ** Enumerated fields *)

Ltac enum_cases := repeat case_match; intros; simplify_eq; reflexivity.

(** A byte outside an enumeration's values fails with that byte. *)
Lemma enum_invalid {E} (to_u8 : E -> Z) (try_from : Z -> result E FormatError) (v : Z) :
  (forall t, try_from v = Ok t -> to_u8 t = v) ->
  (forall e, try_from v = Err e -> e = InvalidByte v 0) ->
  (forall t, to_u8 t <> v) -> try_from v = Err (InvalidByte v 0).
Proof.
  intros Hok Herr Hv. destruct (try_from v) as [t|e] eqn:Hv0.
  - exfalso. apply (Hv t), Hok; reflexivity.
  - rewrite (Herr e eq_refl). reflexivity.
Qed.

Lemma PacketType_try_from_ok (v : Z) (t : PacketType) : PacketType_try_from v = Ok t -> PacketType_to_u8 t = v.
Proof. unfold PacketType_try_from. enum_cases. Qed.

Lemma PacketType_try_from_err (v : Z) (e : FormatError) : PacketType_try_from v = Err e -> e = InvalidByte v 0.
Proof. unfold PacketType_try_from. enum_cases. Qed.

Lemma PacketType_roundtrip (t : PacketType) : PacketType_try_from (PacketType_to_u8 t) = Ok t.
Proof. destruct t; reflexivity. Qed.

Lemma PacketType_invalid (v : Z) : (forall t, PacketType_to_u8 t <> v) -> PacketType_try_from v = Err (InvalidByte v 0).
Proof. apply enum_invalid; [apply PacketType_try_from_ok|apply PacketType_try_from_err]. Qed.

Lemma PayloadType_try_from_ok (v : Z) (t : PayloadType) : PayloadType_try_from v = Ok t -> PayloadType_to_u8 t = v.
Proof. unfold PayloadType_try_from. enum_cases. Qed.

Lemma PayloadType_try_from_err (v : Z) (e : FormatError) : PayloadType_try_from v = Err e -> e = InvalidByte v 0.
Proof. unfold PayloadType_try_from. enum_cases. Qed.

Lemma PayloadType_roundtrip (t : PayloadType) : PayloadType_try_from (PayloadType_to_u8 t) = Ok t.
Proof. destruct t; reflexivity. Qed.

Lemma PayloadType_invalid (v : Z) : (forall t, PayloadType_to_u8 t <> v) -> PayloadType_try_from v = Err (InvalidByte v 0).
Proof. apply enum_invalid; [apply PayloadType_try_from_ok|apply PayloadType_try_from_err]. Qed.

Lemma ColorMode_try_from_ok (v : Z) (t : ColorMode) : ColorMode_try_from v = Ok t -> ColorMode_to_u8 t = v.
Proof. unfold ColorMode_try_from. enum_cases. Qed.

Lemma ColorMode_try_from_err (v : Z) (e : FormatError) : ColorMode_try_from v = Err e -> e = InvalidByte v 0.
Proof. unfold ColorMode_try_from. enum_cases. Qed.

Lemma ColorMode_roundtrip (t : ColorMode) : ColorMode_try_from (ColorMode_to_u8 t) = Ok t.
Proof. destruct t; reflexivity. Qed.

Lemma ColorMode_invalid (v : Z) : (forall t, ColorMode_to_u8 t <> v) -> ColorMode_try_from v = Err (InvalidByte v 0).
Proof. apply enum_invalid; [apply ColorMode_try_from_ok|apply ColorMode_try_from_err]. Qed.

Lemma Size_try_from_ok (v : Z) (t : Size) : Size_try_from v = Ok t -> Size_to_u8 t = v.
Proof. unfold Size_try_from. enum_cases. Qed.

Lemma Size_try_from_err (v : Z) (e : FormatError) : Size_try_from v = Err e -> e = InvalidByte v 0.
Proof. unfold Size_try_from. enum_cases. Qed.

Lemma Size_roundtrip (t : Size) : Size_try_from (Size_to_u8 t) = Ok t.
Proof. destruct t; reflexivity. Qed.

Lemma Size_invalid (v : Z) : (forall t, Size_to_u8 t <> v) -> Size_try_from v = Err (InvalidByte v 0).
Proof. apply enum_invalid; [apply Size_try_from_ok|apply Size_try_from_err]. Qed.

Lemma Format_try_from_ok (v : Z) (t : Format) : Format_try_from v = Ok t -> Format_to_u8 t = v.
Proof. unfold Format_try_from. enum_cases. Qed.

Lemma Format_try_from_err (v : Z) (e : FormatError) : Format_try_from v = Err e -> e = InvalidByte v 0.
Proof. unfold Format_try_from. enum_cases. Qed.

Lemma Format_roundtrip (t : Format) : Format_try_from (Format_to_u8 t) = Ok t.
Proof. destruct t; reflexivity. Qed.

Lemma Format_invalid (v : Z) : (forall t, Format_to_u8 t <> v) -> Format_try_from v = Err (InvalidByte v 0).
Proof. apply enum_invalid; [apply Format_try_from_ok|apply Format_try_from_err]. Qed.

Lemma DPI_try_from_ok (v : Z) (t : DPI) : DPI_try_from v = Ok t -> DPI_to_u8 t = v.
Proof. unfold DPI_try_from. enum_cases. Qed.

Lemma DPI_try_from_err (v : Z) (e : FormatError) : DPI_try_from v = Err e -> e = InvalidByte v 0.
Proof. unfold DPI_try_from. enum_cases. Qed.

Lemma DPI_roundtrip (t : DPI) : DPI_try_from (DPI_to_u8 t) = Ok t.
Proof. destruct t; reflexivity. Qed.

Lemma DPI_invalid (v : Z) : (forall t, DPI_to_u8 t <> v) -> DPI_try_from v = Err (InvalidByte v 0).
Proof. apply enum_invalid; [apply DPI_try_from_ok|apply DPI_try_from_err]. Qed.

Lemma Source_try_from_ok (v : Z) (t : Source) : Source_try_from v = Ok t -> Source_to_u8 t = v.
Proof. unfold Source_try_from. enum_cases. Qed.

Lemma Source_try_from_err (v : Z) (e : FormatError) : Source_try_from v = Err e -> e = InvalidByte v 0.
Proof. unfold Source_try_from. enum_cases. Qed.

Lemma Source_roundtrip (t : Source) : Source_try_from (Source_to_u8 t) = Ok t.
Proof. destruct t; reflexivity. Qed.

Lemma Source_invalid (v : Z) : (forall t, Source_to_u8 t <> v) -> Source_try_from v = Err (InvalidByte v 0).
Proof. apply enum_invalid; [apply Source_try_from_ok|apply Source_try_from_err]. Qed.

Lemma FeederType_try_from_ok (v : Z) (t : FeederType) : FeederType_try_from v = Ok t -> FeederType_to_u8 t = v.
Proof. unfold FeederType_try_from. enum_cases. Qed.

Lemma FeederType_try_from_err (v : Z) (e : FormatError) : FeederType_try_from v = Err e -> e = InvalidByte v 0.
Proof. unfold FeederType_try_from. enum_cases. Qed.

Lemma FeederType_roundtrip (t : FeederType) : FeederType_try_from (FeederType_to_u8 t) = Ok t.
Proof. destruct t; reflexivity. Qed.

Lemma FeederType_invalid (v : Z) : (forall t, FeederType_to_u8 t <> v) -> FeederType_try_from v = Err (InvalidByte v 0).
Proof. apply enum_invalid; [apply FeederType_try_from_ok|apply FeederType_try_from_err]. Qed.

Lemma FeederOrientation_try_from_ok (v : Z) (t : FeederOrientation) : FeederOrientation_try_from v = Ok t -> FeederOrientation_to_u8 t = v.
Proof. unfold FeederOrientation_try_from. enum_cases. Qed.

Lemma FeederOrientation_try_from_err (v : Z) (e : FormatError) : FeederOrientation_try_from v = Err e -> e = InvalidByte v 0.
Proof. unfold FeederOrientation_try_from. enum_cases. Qed.

Lemma FeederOrientation_roundtrip (t : FeederOrientation) : FeederOrientation_try_from (FeederOrientation_to_u8 t) = Ok t.
Proof. destruct t; reflexivity. Qed.

Lemma FeederOrientation_invalid (v : Z) : (forall t, FeederOrientation_to_u8 t <> v) -> FeederOrientation_try_from v = Err (InvalidByte v 0).
Proof. apply enum_invalid; [apply FeederOrientation_try_from_ok|apply FeederOrientation_try_from_err]. Qed.

Lemma feeder_type_decode (ft : option FeederType) :
  (if decide (default 0 (FeederType_to_u8 <$> ft) = 0) then Ok None
   else map_ok Some (FeederType_try_from (default 0 (FeederType_to_u8 <$> ft)))) = Ok ft.
Proof. destruct ft as [[]|]; reflexivity. Qed.

Lemma feeder_orientation_decode (fo : option FeederOrientation) :
  (if decide (default 0 (FeederOrientation_to_u8 <$> fo) = 0) then Ok None
   else map_ok Some (FeederOrientation_try_from (default 0 (FeederOrientation_to_u8 <$> fo))))
  = Ok fo.
Proof. destruct fo as [[]|]; reflexivity. Qed.

(** An interrupt descriptor with one enumerated field replaced by a byte
    that is none of its values fails to decode with that byte. *)
Lemma interrupt_field_error (f : IField) (b : Z) (i : Interrupt) :
  ifield_invalid f b ->
  interrupt_try_from (<[ifield_offset f := b]> (interrupt_to_raw i)) = Err (InvalidByte b 0).
Proof.
  intros Hb. destruct i as [cm sz fm dp so ft fo].
  destruct f; cbn [ifield_offset ifield_invalid] in *; unfold interrupt_to_raw, interrupt_try_from;
    cbn -[ColorMode_try_from Size_try_from Format_try_from DPI_try_from Source_try_from
          FeederType_try_from FeederOrientation_try_from];
    rewrite ?feeder_type_decode, ?feeder_orientation_decode, ?ColorMode_roundtrip,
      ?Size_roundtrip, ?Format_roundtrip, ?DPI_roundtrip, ?Source_roundtrip;
    cbn [bind];
    try (rewrite decide_False by apply Hb);
    first [ rewrite (ColorMode_invalid b) by apply Hb
          | rewrite (Source_invalid b) by apply Hb
          | rewrite (Size_invalid b) by apply Hb
          | rewrite (Format_invalid b) by apply Hb
          | rewrite (DPI_invalid b) by apply Hb
          | rewrite (FeederType_invalid b) by apply Hb
          | rewrite (FeederOrientation_invalid b) by apply Hb ];
    reflexivity.
Qed.

Lemma byte_at_take (n i : nat) (l : bytes) : (i < n)%nat -> byte_at (firstn n l) i = byte_at l i.
Proof.
  unfold byte_at. revert n i; induction l as [|x l IH]; intros n i Hi.
  - rewrite firstn_nil. reflexivity.
  - destruct n as [|n]; [lia|]. destruct i as [|i]; [reflexivity|]. cbn. apply IH. lia.
Qed.

Lemma header_magic_ok (raw : bytes) :
  firstn 4 raw = MAGIC -> negb (bool_decide (firstn 4 (firstn RawHeader_SIZE raw) = MAGIC)) = false.
Proof.
  intros Hm. unfold RawHeader_SIZE. rewrite take_take. cbn [Nat.min].
  rewrite Hm, bool_decide_eq_true_2 by reflexivity. reflexivity.
Qed.

Lemma header_packet_type_error (raw : bytes) :
  (16 <= length raw)%nat -> firstn 4 raw = MAGIC ->
  (forall t, PacketType_to_u8 t <> byte_at raw 4) ->
  header_deserialize raw = Err (InvalidFormat (InvalidByte (byte_at raw 4) 0)).
Proof.
  intros Hl Hm Hb. unfold header_deserialize, sized_deserialize.
  replace (length raw <? RawHeader_SIZE)%nat with false by (symmetry; apply Nat.ltb_ge; exact Hl).
  unfold header_try_from. rewrite header_magic_ok by exact Hm.
  cbn [negb]. rewrite byte_at_take by (unfold RawHeader_SIZE; lia).
  rewrite PacketType_invalid by exact Hb. reflexivity.
Qed.

Lemma header_payload_type_error (raw : bytes) :
  (16 <= length raw)%nat -> firstn 4 raw = MAGIC ->
  (exists t, PacketType_to_u8 t = byte_at raw 4) ->
  (forall t, PayloadType_to_u8 t <> byte_at raw 5) ->
  header_deserialize raw = Err (InvalidFormat (InvalidByte (byte_at raw 5) 5)).
Proof.
  intros Hl Hm [pt Hpt] Hb. unfold header_deserialize, sized_deserialize.
  replace (length raw <? RawHeader_SIZE)%nat with false by (symmetry; apply Nat.ltb_ge; exact Hl).
  unfold header_try_from. rewrite header_magic_ok by exact Hm.
  cbn [negb]. rewrite !byte_at_take by (unfold RawHeader_SIZE; lia).
  rewrite <- Hpt, PacketType_roundtrip. cbn [bind].
  rewrite PayloadType_invalid by exact Hb. reflexivity.
Qed.

Lemma poll_response_field_error (f : IField) (b st sid aid : Z) (i : Interrupt) :
  0 <= st < 2 ^ 32 -> Z.land st 32768 <> 0 -> ifield_invalid f b ->
  poll_response_deserialize
    (u32_to_be_bytes st ++ u32_to_be_bytes sid ++ [0; 0; 0; 20] ++ u32_to_be_bytes aid
     ++ <[ifield_offset f := b]> (interrupt_to_raw i))
  = Err (InvalidFormat (InvalidByte b 0)).
Proof.
  intros Hst Hbit Hb.
  remember (<[ifield_offset f := b]> (interrupt_to_raw i)) as X eqn:HX.
  assert (HlX : length X = 20%nat) by (subst X; rewrite length_insert; reflexivity).
  unfold poll_response_deserialize, sized_deserialize.
  assert (Hl : length (u32_to_be_bytes st ++ u32_to_be_bytes sid ++ [0; 0; 0; 20]
                       ++ u32_to_be_bytes aid ++ X) = 36%nat)
    by (unfold u32_to_be_bytes; len_simpl; rewrite HlX; reflexivity).
  rewrite Hl. unfold RawResponse_SIZE. cbn [Nat.ltb Nat.leb].
  rewrite firstn_exact by exact Hl.
  unfold poll_response_try_from. rewrite u32_roundtrip by exact Hst.
  apply Z.eqb_neq in Hbit. rewrite Hbit. cbn [negb].
  cbn [skipn app u32_to_be_bytes]. rewrite skipn_O. subst X. rewrite interrupt_field_error by exact Hb.
  reflexivity.
Qed.

Lemma Command_poll_type_error (v : Z) (rest : bytes) :
  0 <= v < 2 ^ 16 -> (forall t, PollType_to_u16 t <> v) ->
  Command_deserialize (u16_to_be_bytes v ++ rest) = Some (Err (InvalidFormat (InvalidSlice 0 2))).
Proof.
  intros Hv Hb. unfold Command_deserialize. rewrite u16_roundtrip by exact Hv.
  cbn [length u16_to_be_bytes app Nat.ltb Nat.leb].
  destruct (PollType_try_from v) as [t|e] eqn:E.
  - exfalso. apply (Hb t). revert E. unfold PollType_try_from. enum_cases.
  - revert E. unfold PollType_try_from. enum_cases.
Qed.

(** ** Round trips of the encoded records *)

Lemma u16_bytes_inv (v : Z) : 0 <= v < 2 ^ 16 ->
  Z.lor (Z.shiftl (Z.land (Z.shiftr v 8) 255) 8) (Z.land v 255) = v.
Proof. intros Hv. exact (u16_roundtrip v [] Hv). Qed.

Lemma u32_bytes_inv (v : Z) : 0 <= v < 2 ^ 32 ->
  Z.lor (Z.shiftl (Z.land (Z.shiftr v 24) 255) 24)
    (Z.lor (Z.shiftl (Z.land (Z.shiftr v 16) 255) 16)
       (Z.lor (Z.shiftl (Z.land (Z.shiftr v 8) 255) 8) (Z.land v 255))) = v.
Proof. intros Hv. exact (u32_roundtrip v [] Hv). Qed.

Lemma header_roundtrip (h : Header) : Header_valid h ->
  header_deserialize (header_to_raw h) = Ok (h, 16%nat) /\ slice (header_to_raw h) 7 8 = [0].
Proof.
  intros (He & Hs & Hj & Hp). split; [|reflexivity].
  destruct h as [pt yt e sq jid len]; cbn in He, Hs, Hj, Hp.
  unfold header_deserialize, sized_deserialize, header_try_from, header_to_raw,
    u16_from_be_bytes, u32_from_be_bytes, byte_at, u16_to_be_bytes, u32_to_be_bytes, MAGIC, RawHeader_SIZE.
  cbn [length app firstn nth Nat.ltb Nat.leb packet_type payload_type error sequence job_id payload_size].
  rewrite bool_decide_eq_true_2 by reflexivity. cbn [negb].
  rewrite PacketType_roundtrip, PayloadType_roundtrip. cbn [bind map_err map_ok].
  rewrite u16_bytes_inv, u32_bytes_inv by assumption.
  destruct jid as [j|].
  - rewrite u16_bytes_inv by (specialize (Hj j eq_refl); lia).
    rewrite decide_False by (specialize (Hj j eq_refl); lia). reflexivity.
  - cbn [Z.shiftr Z.shiftl Z.land Z.lor]. reflexivity.
Qed.

Ltac list_cells l H :=
  repeat (destruct l as [|? l]; [discriminate H|injection H as H]);
  destruct l; [clear H|discriminate H].

Lemma parse_digits_acc_app (acc : Z) (l1 l2 : bytes) :
  parse_digits_acc acc (l1 ++ l2) = (a ← parse_digits_acc acc l1; parse_digits_acc a l2).
Proof.
  revert acc; induction l1 as [|b l1 IH]; intros acc; [reflexivity|].
  cbn [app parse_digits_acc]. destruct ((48 <=? b) && (b <=? 57)); [apply IH|reflexivity].
Qed.

Lemma parse_digits_digits (w : nat) : forall (n acc : Z), 0 <= n < 10 ^ Z.of_nat w ->
  parse_digits_acc acc (digits w n) = Some (acc * 10 ^ Z.of_nat w + n).
Proof.
  induction w as [|w IH]; intros n acc Hn.
  - cbn in Hn |- *. f_equal. lia.
  - cbn [digits]. rewrite parse_digits_acc_app.
    rewrite Nat2Z.inj_succ, Z.pow_succ_r in Hn |- * by lia.
    rewrite IH.
    2:{ split; [apply Z.div_pos; lia|]. apply Z.div_lt_upper_bound; lia. }
    cbn [mbind option_bind parse_digits_acc].
    pose proof (Z.mod_pos_bound n 10 ltac:(lia)).
    replace ((48 <=? 48 + n mod 10) && (48 + n mod 10 <=? 57)) with true
      by (symmetry; apply andb_true_intro; split; apply Z.leb_le; lia).
    f_equal. pose proof (Z.div_mod n 10 ltac:(lia)). nia.
Qed.

Lemma parse_digits_of (w : nat) (n : Z) : 0 <= n < 10 ^ Z.of_nat w ->
  parse_digits (digits w n) = Some n.
Proof. intros H. unfold parse_digits. rewrite parse_digits_digits by exact H. reflexivity. Qed.

Lemma datetime_parse_items_split (a b c d e f : bytes) :
  length a = 4%nat -> length b = 2%nat -> length c = 2%nat -> length d = 2%nat ->
  length e = 2%nat -> length f = 2%nat ->
  datetime_parse_items (a ++ b ++ c ++ d ++ e ++ f) =
    (y ← parse_digits a;
     mo ← parse_digits b ≫= in_range 1 12;
     dd ← parse_digits c ≫= in_range 1 31;
     h ← parse_digits d ≫= in_range 0 23;
     mi ← parse_digits e ≫= in_range 0 59;
     s ← parse_digits f ≫= in_range 0 59;
     Some (y, mo, dd, h, mi, s)).
Proof.
  intros Ha Hb Hc Hd He Hf.
  list_cells a Ha. list_cells b Hb. list_cells c Hc. list_cells d Hd. list_cells e He. list_cells f Hf.
  reflexivity.
Qed.

Lemma days_in_month_le (y m : Z) : days_in_month y m <= 31.
Proof. unfold days_in_month. repeat case_match; lia. Qed.

Lemma in_range_ok (lo hi v : Z) : lo <= v <= hi -> in_range lo hi v = Some v.
Proof.
  intros H. unfold in_range.
  replace ((lo <=? v) && (v <=? hi)) with true by (symmetry; apply andb_true_intro; split; apply Z.leb_le; lia).
  reflexivity.
Qed.

Lemma datetime_roundtrip (dt : DateTime) :
  datetime_valid dt -> 0 <= year dt -> nanosecond dt = 0 ->
  exists D, datetime_format dt = Some D /\ length D = 14%nat /\
    datetime_parse_items D = Some (year dt, month dt, day dt, hour dt, minute dt, second dt) /\
    datetime_from_parsed (year dt, month dt, day dt, hour dt, minute dt, second dt) = Some dt.
Proof.
  intros (Hy & Hmo & Hd & Hh & Hmi & Hs & _) Hy0 Hns.
  pose proof (days_in_month_le (year dt) (month dt)).
  unfold datetime_format. destruct (Z.ltb_spec (year dt) 0); [lia|].
  eexists. split; [reflexivity|]. split.
  { rewrite !length_app, !digits_length. reflexivity. }
  split.
  - rewrite datetime_parse_items_split by apply digits_length.
    rewrite !parse_digits_of by (cbn; lia). cbn [mbind option_bind].
    rewrite !in_range_ok by lia. reflexivity.
  - unfold datetime_from_parsed.
    replace (day dt <=? days_in_month (year dt) (month dt)) with true by (symmetry; apply Z.leb_le; lia).
    destruct dt; cbn in Hns |- *. subst. reflexivity.
Qed.

Lemma interrupt_roundtrip (i : Interrupt) :
  sized_deserialize RawInterrupt_SIZE interrupt_try_from (interrupt_to_raw i) = Ok (i, 20%nat) /\
  slice (interrupt_to_raw i) 0 7 = repeat 0 7 /\ slice (interrupt_to_raw i) 13 16 = repeat 0 3 /\
  slice (interrupt_to_raw i) 17 20 = repeat 0 3.
Proof.
  split; [|split; [reflexivity|split; reflexivity]].
  unfold sized_deserialize, interrupt_try_from, interrupt_to_raw, byte_at, RawInterrupt_SIZE.
  cbn [repeat app length firstn nth Nat.ltb Nat.leb].
  rewrite feeder_type_decode, feeder_orientation_decode. cbn [bind].
  rewrite ColorMode_roundtrip, Source_roundtrip, Size_roundtrip, Format_roundtrip, DPI_roundtrip.
  destruct i; reflexivity.
Qed.


Lemma array_deserialize_app (a b : bytes) (n : nat) : length a = n ->
  sized_deserialize n (fun raw => Ok raw) (a ++ b) = Ok (a, n).
Proof.
  intros Ha. unfold sized_deserialize. rewrite length_app.
  destruct (Nat.ltb_spec (length a + length b) n); [lia|].
  rewrite take_app_length' by lia. reflexivity.
Qed.

Lemma discover_roundtrip (r : DiscoverResponse) : DiscoverResponse_valid r ->
  discover_deserialize (discover_serialize r) = Ok (r, length (discover_serialize r)) /\
  slice (discover_serialize r) 0 4 = [0; 1; 8; 0].
Proof.
  destruct r as [[a|a] [b|b]]; intros [Ha Hb]; cbn in Ha, Hb;
    (split; [|reflexivity]);
    unfold discover_serialize, discover_deserialize, sized_deserialize, array_deserialize,
      RawResponseHeader_SIZE, byte_at; simpl;
    rewrite skipn_O, array_deserialize_app by exact Ha; simpl;
    rewrite drop_app_length' by (symmetry; exact Ha);
    rewrite <- (app_nil_r b), array_deserialize_app by exact Hb; simpl;
    rewrite app_nil_r, length_app, Ha, Hb; reflexivity.
Qed.


Lemma Command_roundtrip (c : Command) :
  Command_valid c -> (forall s h d, c = FullCommand s h d -> nanosecond d = 0) ->
  exists bs, Command_serialize c = Some bs /\ Command_deserialize bs = Some (Ok (c, length bs)) /\
    Command_reserved c bs.
Proof.
  intros Hv Hns. destruct c as [|h|s h d|s h a]; cbn in Hv.
  - eexists. split; [reflexivity|]. split; [reflexivity|unfold Command_reserved; reflexivity].
  - list_cells h Hv. eexists. split; [reflexivity|].
    split; [reflexivity|unfold Command_reserved; split; reflexivity].
  - destruct Hv as (Hs & Hh & Hd & Hy).
    destruct (datetime_roundtrip d Hd Hy (Hns _ _ _ eq_refl)) as (D & HD & HlD & Hp & Hf).
    unfold Command_serialize, FullCommand_to_raw. rewrite HD. cbn [fmap option_fmap option_map].
    eexists. split; [reflexivity|].
    list_cells h Hh. list_cells D HlD.
    split; [|unfold Command_reserved; repeat split; reflexivity].
    unfold Command_deserialize, sized_deserialize_opt, FullCommand_try_from,
      u16_from_be_bytes, u32_from_be_bytes, byte_at, u16_to_be_bytes, u32_to_be_bytes, slice,
      RawFullCommand_SIZE, RawFullCommand_datetime_span.
    cbn [Command_poll_type PollType_to_u16 length app firstn skipn nth Nat.ltb Nat.leb Nat.sub Nat.add repeat
         fst snd].
    rewrite u16_bytes_inv by lia. cbn [PollType_try_from repeat app firstn skipn Nat.sub].
    rewrite Hp. cbn [mbind option_bind]. rewrite Hf.
    rewrite u32_bytes_inv by exact Hs. reflexivity.
  - destruct Hv as (Hs & Hh & Ha).
    list_cells h Hh. eexists. split; [reflexivity|].
    split; [|unfold Command_reserved; repeat split; reflexivity].
    unfold Command_serialize, ResetCommand_to_raw, Command_deserialize, sized_deserialize_opt,
      u16_from_be_bytes, u32_from_be_bytes, byte_at, u16_to_be_bytes, u32_to_be_bytes, slice,
      RawResetCommand_SIZE.
    cbn [Command_poll_type PollType_to_u16 length app firstn skipn nth Nat.ltb Nat.leb Nat.sub Nat.add repeat].
    rewrite u16_bytes_inv by lia. cbn [PollType_try_from].
    rewrite !u32_bytes_inv by assumption. reflexivity.
Qed.

(** ** [Host::new] *)

Lemma len_utf16_range (c : Z) : (1 <= len_utf16 c <= 2)%nat.
Proof. unfold len_utf16. destruct (c <? 65536); lia. Qed.

Lemma encode_utf16_length (c : Z) : length (encode_utf16 c) = len_utf16 c.
Proof. unfold encode_utf16, len_utf16. destruct (c <? 65536); reflexivity. Qed.

Lemma utf16_app (a b : list Z) : utf16 (a ++ b) = utf16 a ++ utf16 b.
Proof. unfold utf16. rewrite map_app, concat_app. reflexivity. Qed.

Lemma utf16_len_app (a b : list Z) : utf16_len (a ++ b) = (utf16_len a + utf16_len b)%nat.
Proof. unfold utf16_len. rewrite utf16_app, length_app. reflexivity. Qed.

Lemma utf16_len_single (c : Z) : utf16_len [c] = len_utf16 c.
Proof. unfold utf16_len, utf16. cbn. rewrite app_nil_r. apply encode_utf16_length. Qed.

Lemma push_len_bit (P : Z) (l : nat) (i : Z) : (l < 4)%nat -> 0 <= i ->
  Z.testbit (push_len P l) i =
    if i <? 2 then Z.testbit (Z.of_nat l) i else (i <? 8) && Z.testbit P (i - 2).
Proof.
  intros Hl Hi. unfold push_len.
  rewrite Z.lor_spec, Z.land_spec, Z.shiftl_spec by lia.
  destruct (Z.ltb_spec i 2).
  - rewrite (Z.testbit_neg_r P (i - 2)) by lia. reflexivity.
  - assert (Z.testbit (Z.of_nat l) i = false).
    { apply Z.bits_above_log2; [lia|].
      destruct (Nat.eq_dec l 0%nat) as [->|]; [rewrite Z.log2_nonpos; lia|].
      apply Z.log2_lt_pow2; [lia|]. apply Z.lt_le_trans with (2 ^ 2); [cbn; lia|].
      apply Z.pow_le_mono_r; lia. }
    rewrite H0, orb_false_r.
    destruct (Z.ltb_spec i 8).
    + assert (Z.testbit 255 i = true) as ->.
      { assert (i = 2 \/ i = 3 \/ i = 4 \/ i = 5 \/ i = 6 \/ i = 7) as Hc by lia.
        destruct Hc as [-> | [-> | [-> | [-> | [-> | ->] ] ] ] ]; reflexivity. }
      apply andb_true_r.
    + rewrite (Z.bits_above_log2 255 i) by (cbn; lia). apply andb_false_r.
Qed.

Lemma len_group_push_0 (P : Z) (l : nat) : (l < 4)%nat -> len_group (push_len P l) 0 = Z.of_nat l.
Proof.
  intros Hl. unfold len_group. cbn [Z.of_nat Z.mul]. rewrite Z.shiftr_0_r.
  apply Z.bits_inj'. intros i Hi. rewrite Z.land_spec, push_len_bit by lia.
  destruct (Z.ltb_spec i 2).
  - assert (Z.testbit 3 i = true) as -> by (assert (i = 0 \/ i = 1) as [->| ->] by lia; reflexivity).
    apply andb_true_r.
  - rewrite (Z.bits_above_log2 3 i) by (cbn; lia). rewrite andb_false_r.
    symmetry. apply Z.bits_above_log2; [lia|].
    destruct (Nat.eq_dec l 0%nat) as [->|]; [rewrite Z.log2_nonpos; lia|].
    apply Z.log2_lt_pow2; [lia|]. apply Z.lt_le_trans with (2 ^ 2); [cbn; lia|].
    apply Z.pow_le_mono_r; lia.
Qed.

Lemma len_group_push_S (P : Z) (l k : nat) : (l < 4)%nat -> (k < 3)%nat ->
  len_group (push_len P l) (S k) = len_group P k.
Proof.
  intros Hl Hk. unfold len_group. apply Z.bits_inj'. intros i Hi.
  rewrite !Z.land_spec, !Z.shiftr_spec, push_len_bit by lia.
  destruct (Z.ltb_spec i 2).
  - replace ((i + 2 * Z.of_nat (S k)) <? 2) with false by (symmetry; apply Z.ltb_ge; lia).
    replace ((i + 2 * Z.of_nat (S k)) <? 8) with true by (symmetry; apply Z.ltb_lt; lia).
    cbn [andb]. f_equal. f_equal. lia.
  - rewrite (Z.bits_above_log2 3 i) by (cbn; lia). rewrite !andb_false_r. reflexivity.
Qed.

Lemma len_group_shiftr (P : Z) (k : nat) : len_group (Z.shiftr P 2) k = len_group P (S k).
Proof. unfold len_group. rewrite Z.shiftr_shiftr by lia. f_equal. f_equal. lia. Qed.

Lemma host_groups_push (P : Z) (ls : list nat) (l : nat) : (l < 4)%nat ->
  host_groups_ok P ls -> host_groups_ok (push_len P l) (l :: ls).
Proof.
  intros Hl H [|k] Hk Hlen.
  - apply len_group_push_0, Hl.
  - rewrite len_group_push_S by lia. cbn [nth]. apply H; cbn in Hlen; lia.
Qed.

Lemma host_groups_shiftr (P : Z) (l : nat) (ls : list nat) :
  host_groups_ok P (l :: ls) -> (length ls <= 3)%nat -> host_groups_ok (Z.shiftr P 2) ls.
Proof.
  intros H Hl k Hk Hlen. rewrite len_group_shiftr. apply (H (S k)); cbn; lia.
Qed.

Lemma utf16_len_cons (c : Z) (m : list Z) : utf16_len (c :: m) = (len_utf16 c + utf16_len m)%nat.
Proof. rewrite <- utf16_len_single, <- utf16_len_app. reflexivity. Qed.

Lemma host_backoff_spec (w : list Z) : forall (base : nat) (P : Z) (fuel : nat),
  (base <= 29)%nat -> (length w <= 4)%nat -> (length w < fuel)%nat ->
  (w = [] \/ exists c0 m, w = c0 :: m /\ (29 < base + len_utf16 c0)%nat) ->
  host_groups_ok P (rev (map len_utf16 w)) ->
  host_backoff fuel (base + utf16_len w) P = Some base.
Proof.
  induction w as [|c w IH] using rev_ind; intros base P fuel Hb Hw Hf Hfirst HP.
  - destruct fuel as [|fuel]; [cbn in Hf; lia|].
    cbn [host_backoff utf16_len utf16 map concat length]. rewrite Nat.add_0_r.
    replace (base <=? 32 - 3)%nat with true by (symmetry; apply Nat.leb_le; lia). reflexivity.
  - destruct fuel as [|fuel]; [lia|].
    rewrite length_app in Hw, Hf. cbn [length] in Hw, Hf.
    assert (Hpos : (29 < base + utf16_len (w ++ [c]))%nat).
    { destruct Hfirst as [Hn|(c0 & m & Hc0 & Hlt)]; [destruct w; discriminate|].
      rewrite Hc0, utf16_len_cons. lia. }
    assert (Hd : Z.to_nat (Z.land P 3) = len_utf16 c).
    { pose proof (HP 0%nat) as H0. unfold len_group in H0. cbn [Z.of_nat Z.mul] in H0.
      rewrite Z.shiftr_0_r in H0. rewrite H0 by (try rewrite length_rev, length_map, length_app; cbn; lia).
      rewrite map_app, rev_app_distr. cbn. lia. }
    cbn [host_backoff].
    replace (base + utf16_len (w ++ [c]) <=? 32 - 3)%nat with false
      by (symmetry; apply Nat.leb_gt; lia).
    rewrite Hd, utf16_len_app, utf16_len_single.
    replace (base + (utf16_len w + len_utf16 c) <? len_utf16 c)%nat with false
      by (symmetry; apply Nat.ltb_ge; lia).
    replace (base + (utf16_len w + len_utf16 c) - len_utf16 c)%nat with (base + utf16_len w)%nat by lia.
    apply IH; [lia|lia|lia| |].
    + destruct w as [|c1 w]; [left; reflexivity|right].
      destruct Hfirst as [Hn|(c0 & m & Hc0 & Hlt)]; [discriminate|].
      injection Hc0 as <- _. exists c1, w. split; [reflexivity|exact Hlt].
    + rewrite map_app, rev_app_distr in HP. cbn [map rev app] in HP.
      apply (host_groups_shiftr P (len_utf16 c)); [exact HP|].
      rewrite length_rev, length_map. lia.
Qed.

Lemma utf16_length (s : list Z) : length (utf16 s) = utf16_len s.
Proof. reflexivity. Qed.

Lemma drop_repeat {A} (x : A) (n m : nat) : drop n (repeat x m) = repeat x (m - n).
Proof.
  revert m. induction n as [|n IH]; intros [|m]; cbn; try reflexivity. apply IH.
Qed.

Lemma host_write_step (done : list Z) (c : Z) :
  (utf16_len done + len_utf16 c <= 32)%nat ->
  write_units (utf16 done ++ repeat 0 (32 - utf16_len done)) (utf16_len done) (encode_utf16 c) =
    Some (utf16 (done ++ [c]) ++ repeat 0 (32 - utf16_len (done ++ [c]))).
Proof.
  intros H. unfold write_units.
  rewrite length_app, repeat_length, utf16_length, encode_utf16_length.
  replace (utf16_len done + len_utf16 c <=? utf16_len done + (32 - utf16_len done))%nat with true
    by (symmetry; apply Nat.leb_le; lia).
  f_equal. rewrite utf16_len_app, utf16_len_single, utf16_app, <- app_assoc.
  rewrite <- utf16_length, take_app_length, drop_app_ge by lia.
  rewrite utf16_length. f_equal.
  idtac.
  rewrite drop_repeat. unfold utf16. cbn [map concat]. rewrite app_nil_r.
  f_equal. f_equal. lia.
Qed.

Lemma host_loop_spec (cs : list Z) : forall (done : list Z) (P : Z),
  (utf16_len done <= 32)%nat -> host_groups_ok P (rev (map len_utf16 done)) ->
  ((utf16_len (done ++ cs) <= 32)%nat /\ exists P',
     host_chars_loop cs (utf16 done ++ repeat 0 (32 - utf16_len done)) (utf16_len done) P =
       Some (utf16 (done ++ cs) ++ repeat 0 (32 - utf16_len (done ++ cs)),
             utf16_len (done ++ cs), P', false)) \/
  (exists p c r P', cs = p ++ c :: r /\
     (utf16_len (done ++ p) <= 32 < utf16_len (done ++ p ++ [c]))%nat /\
     host_groups_ok P' (rev (map len_utf16 (done ++ p ++ [c]))) /\
     host_chars_loop cs (utf16 done ++ repeat 0 (32 - utf16_len done)) (utf16_len done) P =
       Some (utf16 (done ++ p) ++ repeat 0 (32 - utf16_len (done ++ p)),
             utf16_len (done ++ p ++ [c]), P', true)).
Proof.
  induction cs as [|c cs IH]; intros done P Hd HP.
  - left. rewrite app_nil_r. split; [exact Hd|]. exists P. reflexivity.
  - pose proof (len_utf16_range c) as Hc.
    assert (HP' : host_groups_ok (push_len P (len_utf16 c)) (rev (map len_utf16 (done ++ [c])))).
    { rewrite map_app, rev_app_distr. apply host_groups_push; [lia|exact HP]. }
    cbn [host_chars_loop]. rewrite length_app, repeat_length, utf16_length.
    destruct (Nat.ltb_spec (utf16_len done + (32 - utf16_len done)) (utf16_len done + len_utf16 c))
      as [Hlt|Hge].
    + right. exists [], c, cs, (push_len P (len_utf16 c)).
      cbn [app]. rewrite !app_nil_r.
      split; [reflexivity|]. rewrite utf16_len_app, utf16_len_single. split; [lia|]. split; [exact HP'|]. reflexivity.
    + rewrite host_write_step by lia. cbn [mbind option_bind].
      replace (utf16_len done + len_utf16 c)%nat with (utf16_len (done ++ [c]))
        by (rewrite utf16_len_app, utf16_len_single; reflexivity).
      destruct (IH (done ++ [c]) _ ltac:(rewrite utf16_len_app, utf16_len_single; lia) HP')
        as [[Hle [P' Heq]]|(p & c' & r & P' & -> & Hlen & Hg & Heq)];
        repeat rewrite <- app_assoc in *; cbn [app] in *.
      * left. split; [exact Hle|]. exists P'. exact Heq.
      * right. exists (c :: p), c', r, P'. split; [reflexivity|]. split; [exact Hlen|].
        split; [exact Hg|exact Heq].
Qed.

Lemma utf16_split (q : list Z) : forall n : nat, (n < utf16_len q)%nat ->
  exists p c m, q = p ++ c :: m /\ (utf16_len p <= n < utf16_len p + len_utf16 c)%nat.
Proof.
  induction q as [|c q IH]; intros n Hn; [cbn in Hn; lia|].
  rewrite utf16_len_cons in Hn.
  destruct (Nat.ltb_spec n (len_utf16 c)) as [Hlt|Hge].
  - exists [], c, q. split; [reflexivity|]. cbn. lia.
  - destruct (IH (n - len_utf16 c)%nat ltac:(lia)) as (p & c' & m & -> & Hp).
    exists (c :: p), c', m. split; [reflexivity|]. rewrite utf16_len_cons. lia.
Qed.

Lemma utf16_len_ge_length (q : list Z) : (length q <= utf16_len q)%nat.
Proof.
  induction q as [|c q IH]; [cbn; lia|].
  rewrite utf16_len_cons. pose proof (len_utf16_range c). cbn [length]. lia.
Qed.

Lemma host_groups_suffix (P : Z) (a w : list Z) :
  host_groups_ok P (rev (map len_utf16 (a ++ w))) -> host_groups_ok P (rev (map len_utf16 w)).
Proof.
  intros H k Hk Hl. rewrite map_app, rev_app_distr in H.
  rewrite (H k Hk) by (rewrite length_app; lia). rewrite app_nth1 by exact Hl. reflexivity.
Qed.

Lemma host_fill (a x : list Z) : (length a <= 29)%nat -> length (a ++ x) = 32%nat ->
  (b ← fill_range (a ++ x) (length a) (length a + 3) 46; fill_range b (length a + 3) 32 0) =
    Some (a ++ [46; 46; 46] ++ repeat 0 (29 - length a)).
Proof.
  intros Ha Hx. rewrite length_app in Hx. unfold fill_range.
  rewrite length_app, Hx.
  replace ((length a <=? length a + 3)%nat && (length a + 3 <=? 32)%nat) with true
    by (symmetry; apply andb_true_intro; split; apply Nat.leb_le; lia).
  cbn [mbind option_bind].
  rewrite take_app_length, drop_app_ge by lia.
  replace (length a + 3 - length a)%nat with 3%nat by lia.
  assert (Hlen : length (a ++ repeat 46 3 ++ drop 3 x) = 32%nat).
  { rewrite !length_app, length_drop, repeat_length. lia. }
  rewrite Hlen.
  replace ((length a + 3 <=? 32)%nat && (32 <=? 32)%nat) with true
    by (symmetry; apply andb_true_intro; split; apply Nat.leb_le; lia).
  cbv iota.
  rewrite (drop_ge _ 32) by (rewrite Hlen; lia). rewrite app_nil_r.
  rewrite (app_assoc a (repeat 46 3)), take_app_length' by (rewrite length_app, repeat_length; lia).
  rewrite <- app_assoc. replace (32 - (length a + 3))%nat with (29 - length a)%nat by lia. reflexivity.
Qed.

Lemma u16_bytes_length (l : list Z) : length (concat (map u16_to_be_bytes l)) = (2 * length l)%nat.
Proof. induction l as [|v l IH]; [reflexivity|]. cbn [map concat length u16_to_be_bytes app]. lia. Qed.

(** * Claims *)

(** ** Poll command sizes *)




(** ** Identity parse *)

(** C4 (amended): the identity payload [00 20 "MFG:Canon;MDL:Dummy;CLS:IMAGE;"]
    decodes to the map [{MFG -> Canon, MDL -> Dummy, CLS -> IMAGE}] and the
    decoder reports 32 bytes consumed: the length prefix counts itself. *)
Theorem identity_example_parse :
  identity_deserialize identity_example_bytes = Some (Ok (identity_example_map, 32%nat)).
Proof. vm_compute. reflexivity. Qed.

(** The consumed length is not 34. *)
Lemma identity_example_not_34 :
  identity_deserialize identity_example_bytes <> Some (Ok (identity_example_map, 34%nat)).
Proof.
  intros H.
  apply (f_equal (fun r => match r with Some (Ok (_, n)) => n | _ => 0%nat end)) in H.
  vm_compute in H. discriminate H.
Qed.

(** ** The poll state machine *)

(** C6 (amended): [transit_err] maps [Init] to [Backoff(initial_max_waiting)],
    [Poll] to [Init], and [Backoff(d)] to
    [Backoff(min(backoff_maximum, ((d as f32) * backoff_factor) as u64))],
    computed in single precision; when [d] and the product are exact in
    [f32] ([d < 2^24], factor [m * 2^e] with [-149 <= e <= 0] and
    [d * m < 2^24]) that is [min(backoff_maximum, floor(d * factor))].
    Every successful [next], from any state, yields [Poll]. *)
Theorem transit_err_spec (config : ListenConfig) :
  transit_err config State.Init = State.Backoff (initial_max_waiting config) /\
  transit_err config State.Poll = State.Init /\
  (forall d, transit_err config (State.Backoff d) =
     State.Backoff (Z.min (backoff_maximum config)
                      (f32_to_u64 (f32_mul (f32_of_u64 d) (backoff_factor config))))) /\
  (forall d m e, backoff_factor config = F32Finite false m e ->
     0 <= d < 2 ^ 24 -> 0 <= m -> -149 <= e <= 0 -> d * m < 2 ^ 24 ->
     transit_err config (State.Backoff d) =
       State.Backoff (Z.min (backoff_maximum config) ((d * m) / 2 ^ (- e)))) /\
  (forall s l s' l', next config s l = Some (Ok s', l') -> s' = State.Poll).
Proof.
  split; [reflexivity|]. split; [reflexivity|]. split; [reflexivity|]. split.
  - intros d m e Hf Hd Hm He Hdm. cbn [transit_err]. rewrite Hf.
    rewrite f32_backoff_exact by assumption. reflexivity.
  - intros s l s' l'. apply next_ok_poll.
Qed.

(** With [backoff_factor = 2.0] and [initial_max_waiting = 16777217], a
    failed [Init] goes to [Backoff(16777217)], and a failed retry from there
    goes to [Backoff(33554432)]: [16777217 as f32] rounds to [2^24], so the
    result is not [floor(16777217 * 2.0) = 33554434]. *)
Lemma transit_err_f32_rounding :
  transit_err backoff_factor2_config State.Init = State.Backoff 16777217 /\
  transit_err backoff_factor2_config (State.Backoff 16777217) = State.Backoff 33554432 /\
  transit_err backoff_factor2_config (State.Backoff 16777217) <>
    State.Backoff (Z.min (backoff_maximum backoff_factor2_config) (16777217 * 2)).
Proof.
  split; [reflexivity|]. split; [vm_compute; reflexivity|].
  vm_compute. intros H. discriminate H.
Qed.

(** ** Poll response status *)

(** C5: a 36-byte poll response whose status word has bit [0x00008000] set
    decodes, when its 20-byte descriptor at 16..36 decodes, to no session id,
    the action id of bytes 12..16 and that descriptor (and fails with the
    descriptor's error otherwise); with the bit clear it decodes to the
    session id of bytes 4..8, no action id and no interrupt. *)
Theorem poll_response_status_bit (buf : bytes) :
  length buf = 36%nat ->
  (Z.land (u32_from_be_bytes buf 0) 32768 <> 0 ->
     poll_response_deserialize buf =
       match interrupt_try_from (slice buf 16 36) with
       | Ok i => Ok ({| status := u32_from_be_bytes buf 0; session_id := None;
                        action_id := Some (u32_from_be_bytes buf 12);
                        interrupt := Some i |}, 36%nat)
       | Err e => Err (InvalidFormat e)
       end) /\
  (Z.land (u32_from_be_bytes buf 0) 32768 = 0 ->
     poll_response_deserialize buf =
       Ok ({| status := u32_from_be_bytes buf 0; session_id := Some (u32_from_be_bytes buf 4);
              action_id := None; interrupt := None |}, 36%nat)).
Proof.
  intros Hl. unfold poll_response_deserialize, sized_deserialize, RawResponse_SIZE.
  rewrite Hl. cbn [Nat.ltb Nat.leb]. rewrite (firstn_exact 36 buf Hl).
  rewrite (slice_to_end buf 16 36 Hl) by lia.
  unfold poll_response_try_from. split; intros Hbit.
  - apply Z.eqb_neq in Hbit. rewrite Hbit. cbn [negb].
    destruct (interrupt_try_from (skipn 16 buf)); reflexivity.
  - apply Z.eqb_eq in Hbit. rewrite Hbit. reflexivity.
Qed.

Lemma poll_response_status_bit_witness :
  length interrupt_response_bytes = 36%nat /\
  Z.land (u32_from_be_bytes interrupt_response_bytes 0) 32768 <> 0 /\
  poll_response_deserialize interrupt_response_bytes =
    Ok ({| status := 32768; session_id := None; action_id := Some 7;
           interrupt := Some interrupt_example |}, 36%nat).
Proof.
  assert (Hl : length interrupt_response_bytes = 36%nat) by reflexivity.
  assert (Hb : Z.land (u32_from_be_bytes interrupt_response_bytes 0) 32768 <> 0)
    by (vm_compute; discriminate).
  split; [exact Hl|]. split; [exact Hb|].
  rewrite (proj1 (poll_response_status_bit interrupt_response_bytes Hl) Hb).
  vm_compute. reflexivity.
Defined.

(** ** Remote errors *)

(** C9: for a datagram of bytes whose header and payload parse,
    [Channel::recv] fails with a remote error naming the header's error
    code exactly when the error code is nonzero and [payload_size] is 0;
    otherwise it returns the decoding of the payload into the chosen type. *)
Theorem recv_remote_error {T} `{Deserialize T} (dgram : bytes) (p : PacketHeaderOnly) :
  Forall (fun b => 0 <= b < 256) dgram ->
  PacketHeaderOnly_parse (firstn (Z.to_nat 65536) dgram) = Ok p ->
  ((exists c, Channel_recv_datagram (T := T) dgram = Err (ERemote c)) <->
     error (pho_header p) <> 0 /\ payload_size (pho_header p) = 0) /\
  (error (pho_header p) <> 0 -> payload_size (pho_header p) = 0 ->
     Channel_recv_datagram (T := T) dgram = Err (ERemote (error (pho_header p)))) /\
  (error (pho_header p) = 0 \/ payload_size (pho_header p) <> 0 ->
     Channel_recv_datagram (T := T) dgram =
       match Packet_try_from (T := T) p with
       | Ok pk => Ok (pk_payload pk)
       | Err e => Err (EParse e)
       end).
Proof.
  intros Hf Hp.
  assert (Hpos : 0 <= payload_size (pho_header p)).
  { eapply PacketHeaderOnly_parse_payload_size; [|exact Hp].
    apply Forall_take. eapply Forall_impl; [exact Hf|]. cbn; lia. }
  assert (Hr : Channel_recv_datagram (T := T) dgram =
    if negb ((error (pho_header p) =? 0) || (0 <? payload_size (pho_header p)))
    then Err (ERemote (error (pho_header p)))
    else match Packet_try_from (T := T) p with
         | Ok pk => Ok (pk_payload pk)
         | Err e => Err (EParse e)
         end).
  { unfold Channel_recv_datagram. rewrite Hp. cbn [map_err bind].
    case_match; [reflexivity|]. unfold map_err, bind. destruct (Packet_try_from p); reflexivity. }
  rewrite Hr.
  destruct (Z.eqb_spec (error (pho_header p)) 0) as [He|He];
    destruct (Z.ltb_spec 0 (payload_size (pho_header p))) as [Hs|Hs]; cbn [negb orb].
  - split; [split; [intros [c Hc]; destruct (Packet_try_from p); discriminate|lia]|].
    split; [intros; contradiction|]. intros _. reflexivity.
  - split; [split; [intros [c Hc]; destruct (Packet_try_from p); discriminate|lia]|].
    split; [intros; contradiction|]. intros _. reflexivity.
  - split; [split; [intros [c Hc]; destruct (Packet_try_from p); discriminate|lia]|].
    split; [intros; lia|]. intros _. reflexivity.
  - split; [split; [intros _; split; [exact He|lia]|eauto]|].
    split; [reflexivity|]. intros [He'|Hs']; [contradiction|lia].
Qed.

Lemma recv_remote_error_witness :
  Forall (fun b => 0 <= b < 256) remote_error_dgram /\
  PacketHeaderOnly_parse (firstn (Z.to_nat 65536) remote_error_dgram) =
    Ok {| pho_header := remote_error_header; pho_payload := [] |} /\
  Channel_recv_datagram (T := Empty) remote_error_dgram = Err (ERemote 1).
Proof.
  assert (Hf : Forall (fun b => 0 <= b < 256) remote_error_dgram)
    by (vm_compute; repeat constructor; discriminate).
  assert (Hp : PacketHeaderOnly_parse (firstn (Z.to_nat 65536) remote_error_dgram) =
                 Ok {| pho_header := remote_error_header; pho_payload := [] |})
    by (vm_compute; reflexivity).
  split; [exact Hf|]. split; [exact Hp|].
  apply (proj1 (proj2 (recv_remote_error (T := Empty) remote_error_dgram _ Hf Hp)));
    [vm_compute; discriminate | reflexivity].
Defined.

(** ** Sequence numbers *)

(** C7: a new channel's sequence counter is 0 and [reset_sequence] sets it
    back to 0.  Over any run of sends from a counter [s0], only successful
    sends put a packet on the wire and advance the counter, by one each,
    modulo [2^16]: after [N] successful sends it is [(s0 + N) mod 2^16],
    and the [i]-th packet sent carries [(s0 + i) mod 2^16] in its sequence
    field (bytes 8..10), the value before its own increment. *)
Theorem channel_sequence (ch : Channel) (atts : list SendAttempt) :
  0 <= ch_sequence ch < 2 ^ 16 -> Forall sa_serializes atts ->
  ch_sequence Channel_new = 0 /\
  ch_sequence (Channel_reset_sequence ch) = 0 /\
  exists ch' wire, run_sends ch atts = Some (ch', wire) /\
    ch_sequence ch' = (ch_sequence ch + Z.of_nat (count_ok atts)) mod 2 ^ 16 /\
    length wire = count_ok atts /\
    forall i, (i < count_ok atts)%nat ->
      u16_from_be_bytes (nth i wire []) 8 = (ch_sequence ch + Z.of_nat i) mod 2 ^ 16.
Proof.
  intros Hch Hser. split; [reflexivity|]. split; [reflexivity|].
  apply run_sends_spec; assumption.
Qed.

Lemma channel_sequence_witness :
  0 <= ch_sequence Channel_new < 2 ^ 16 /\ Forall sa_serializes send_example /\
  exists ch' wire, run_sends Channel_new send_example = Some (ch', wire) /\
    ch_sequence ch' = 2 /\ length wire = 2%nat /\
    u16_from_be_bytes (nth 1 wire []) 8 = 1.
Proof.
  assert (Hch : 0 <= ch_sequence Channel_new < 2 ^ 16) by (cbn; lia).
  assert (Hser : Forall sa_serializes send_example)
    by (repeat (constructor; [eexists; reflexivity|]); constructor).
  split; [exact Hch|]. split; [exact Hser|].
  destruct (channel_sequence Channel_new send_example Hch Hser)
    as (_ & _ & ch' & wire & Hrun & Hseq & Hlen & Hnth).
  exists ch', wire. split; [exact Hrun|]. split; [rewrite Hseq; reflexivity|].
  split; [exact Hlen|]. rewrite Hnth; [reflexivity|]. simpl. lia.
Defined.

(** ** Interrupts in the poll state *)

(** C10: in the [Poll] state a round launches the external command or
    sends more than the poll command (that is, a [Reset]) only when its
    first reply decodes to a poll response whose status is exactly
    [0x8000].  A reply whose status has bit [0x8000] and any other bit set
    carries an interrupt and no session id; when the poll command goes out
    and that reply arrives, the round succeeds without launching anything,
    sends only the poll command and leaves the stored session id
    unchanged. *)
Theorem poll_interrupt_status (config : ListenConfig) :
  (forall l res l', next config State.Poll l = Some (res, l') ->
     launched_of l' <> launched_of l \/ (S (length (wire_of l)) < length (wire_of l'))%nat ->
     exists dg r, head (w_recv (l_world l)) = Some (Some dg) /\
       Channel_recv_datagram (T := PollResponse) dg = Ok r /\ status r = 32768) /\
  (forall l dg r, head (w_send_ok (l_world l)) = Some true -> 0 <= year (w_now (l_world l)) ->
     head (w_recv (l_world l)) = Some (Some dg) ->
     Channel_recv_datagram (T := PollResponse) dg = Ok r ->
     Z.land (status r) 32768 <> 0 -> status r <> 32768 ->
     session_id r = None /\ (exists i, interrupt r = Some i) /\
     exists l', next config State.Poll l = Some (Ok State.Poll, l') /\
       launched_of l' = launched_of l /\ length (wire_of l') = S (length (wire_of l)) /\
       l_session_id l' = l_session_id l).
Proof.
  split.
  - intros l res l' H Hchg. destruct (poll_round_quiet config l l' res H) as [Hx|[Hl Hw]];
      [exact Hx|]. exfalso. destruct Hchg as [Hchg|Hchg]; [contradiction|lia].
  - intros l dg r Hok Hy Hq Hdec Hbit Hs.
    destruct (recv_poll_response_interrupt dg r Hdec Hbit) as [Hsid Hi].
    split; [exact Hsid|]. split; [exact Hi|].
    apply poll_round_masked with (dg := dg) (r := r); assumption.
Qed.

Lemma poll_interrupt_status_witness :
  Channel_recv_datagram (T := PollResponse) masked_dgram = Ok masked_response /\
  exists l', next backoff_example_config State.Poll masked_listener = Some (Ok State.Poll, l') /\
    launched_of l' = [] /\ length (wire_of l') = 1%nat /\ l_session_id l' = 42.
Proof.
  assert (Hdec : Channel_recv_datagram (T := PollResponse) masked_dgram = Ok masked_response)
    by (vm_compute; reflexivity).
  split; [exact Hdec|].
  destruct (proj2 (poll_interrupt_status backoff_example_config) masked_listener masked_dgram
              masked_response) as (_ & _ & l' & Hn & Hl & Hw & Hs);
    [reflexivity|vm_compute; discriminate|reflexivity|exact Hdec
    |vm_compute; discriminate|vm_compute; discriminate|].
  exists l'. split; [exact Hn|]. split; [exact Hl|]. split; [exact Hw|exact Hs].
Defined.

(** ** Enumerated fields *)

(** C3 (amended): a header whose payload-type byte [b] is no payload type
    fails with [InvalidByte { byte: b, offset: 5 }]; a header whose
    packet-type byte [b] is no packet type fails with an [InvalidByte]
    carrying [b]; a poll response announcing an interrupt whose descriptor
    has, in one enumerated field (color mode, source, feeder type, size,
    format, dpi, feeder orientation), a byte [b] that is none of its values
    (nor [0] for the feeder fields) fails with an [InvalidByte] carrying
    [b]; and a poll command whose 16-bit type tag is not 0, 1, 2 or 5
    fails with [InvalidSlice { span: 0..2 }]. *)
Theorem enum_field_errors :
  (forall raw, (16 <= length raw)%nat -> firstn 4 raw = MAGIC ->
     (exists t, PacketType_to_u8 t = byte_at raw 4) ->
     (forall t, PayloadType_to_u8 t <> byte_at raw 5) ->
     header_deserialize raw = Err (InvalidFormat (InvalidByte (byte_at raw 5) 5))) /\
  (forall raw, (16 <= length raw)%nat -> firstn 4 raw = MAGIC ->
     (forall t, PacketType_to_u8 t <> byte_at raw 4) ->
     exists o, header_deserialize raw = Err (InvalidFormat (InvalidByte (byte_at raw 4) o))) /\
  (forall f b st sid aid i, 0 <= st < 2 ^ 32 -> Z.land st 32768 <> 0 -> ifield_invalid f b ->
     exists o, poll_response_deserialize
                 (u32_to_be_bytes st ++ u32_to_be_bytes sid ++ [0; 0; 0; 20] ++ u32_to_be_bytes aid
                  ++ <[ifield_offset f := b]> (interrupt_to_raw i))
               = Err (InvalidFormat (InvalidByte b o))) /\
  (forall v rest, 0 <= v < 2 ^ 16 -> (forall t, PollType_to_u16 t <> v) ->
     Command_deserialize (u16_to_be_bytes v ++ rest) =
       Some (Err (InvalidFormat (InvalidSlice 0 2)))).
Proof.
  split; [exact header_payload_type_error|].
  split; [intros raw Hl Hm Hb; eexists; exact (header_packet_type_error raw Hl Hm Hb)|].
  split; [intros f b st sid aid i Hst Hbit Hb; eexists;
          exact (poll_response_field_error f b st sid aid i Hst Hbit Hb)|].
  exact Command_poll_type_error.
Qed.

Lemma enum_field_errors_witness :
  header_deserialize (MAGIC ++ [2; 99; 0; 0] ++ repeat 0 8) =
    Err (InvalidFormat (InvalidByte 99 5)) /\
  exists o, poll_response_deserialize
              (u32_to_be_bytes 32768 ++ u32_to_be_bytes 0 ++ [0; 0; 0; 20] ++ u32_to_be_bytes 7
               ++ <[ifield_offset FDpi := 7]> (interrupt_to_raw interrupt_example))
            = Err (InvalidFormat (InvalidByte 7 o)).
Proof.
  split.
  - apply (proj1 enum_field_errors); [cbn; lia|reflexivity| |].
    + exists ScannerCommand. reflexivity.
    + intros t; destruct t; vm_compute; discriminate.
  - apply (proj1 (proj2 (proj2 enum_field_errors))); [lia|vm_compute; discriminate|].
    intros x; destruct x; vm_compute; discriminate.
Defined.

(** The packet-type byte sits at offset 4 of the header but its error
    reports offset 0; a poll type outside the set fails with
    [InvalidSlice], not [InvalidByte]. *)
Lemma enum_field_offset_mismatch :
  header_deserialize (MAGIC ++ [3; 2; 0; 0] ++ repeat 0 8) =
    Err (InvalidFormat (InvalidByte 3 0)) /\
  Command_deserialize ([0; 3] ++ repeat 0 78) = Some (Err (InvalidFormat (InvalidSlice 0 2))).
Proof. split; vm_compute; reflexivity. Qed.

(** ** [Host::new] *)

(** C8: [Host::new s] never panics and always returns 64 bytes, 32 UTF-16
    code units written big-endian.  When the UTF-16 encoding of [s] has at
    most 32 units it is the encoding followed by zero units; when it has
    more, it is the encoding of the longest prefix [p] of [s] (whole
    characters, so no surrogate pair is split) of at most 29 units,
    followed by three '.' units (46) and then zero units. *)
Theorem Host_new_spec (s : list Z) :
  exists h, Host_new s = Some h /\ length h = 64%nat /\
  ((utf16_len s <= 32)%nat ->
     h = concat (map u16_to_be_bytes (utf16 s ++ repeat 0 (32 - utf16_len s)))) /\
  ((32 < utf16_len s)%nat ->
     exists p c r, s = p ++ c :: r /\ (utf16_len p <= 29 < utf16_len (p ++ [c]))%nat /\
       h = concat (map u16_to_be_bytes (utf16 p ++ [46; 46; 46] ++ repeat 0 (29 - utf16_len p)))).
Proof.
  unfold Host_new.
  replace (host_chars_loop s (repeat 0 32) 0 0)
    with (host_chars_loop s (utf16 [] ++ repeat 0 (32 - utf16_len [])) (utf16_len []) 0)
    by reflexivity.
  destruct (host_loop_spec s [] 0 ltac:(cbn; lia) ltac:(intros k _ Hk; cbn in Hk; lia))
    as [[Hle [P' Heq]]|(p & c & r & P' & -> & Hlen & Hg & Heq)];
    rewrite Heq; cbn [app mbind option_bind] in *.
  - eexists. split; [reflexivity|]. split.
    { rewrite u16_bytes_length, length_app, repeat_length, utf16_length. lia. }
    split; [reflexivity|]. intros; lia.
  - assert (Hover : (29 < utf16_len (p ++ [c]))%nat) by lia.
    destruct (utf16_split (p ++ [c]) 29 Hover) as (p0 & c0 & m & Hsplit & Hp0).
    (* [p0 ++ c0 :: m] ends in [c]: the backoff removes [c0 :: m] *)
    assert (Hw : (length (c0 :: m) <= 4)%nat /\ exists t, p = p0 ++ t).
    { destruct m as [|x m' _] using rev_ind.
      - apply app_inj_tail in Hsplit as [-> ->]. split; [cbn; lia|]. exists []. symmetry. apply app_nil_r.
      - rewrite app_comm_cons, app_assoc in Hsplit. apply app_inj_tail in Hsplit as [-> ->].
        split; [|exists (c0 :: m'); reflexivity].
        rewrite utf16_len_app, utf16_len_cons in Hlen.
        pose proof (utf16_len_ge_length m'). rewrite length_cons, length_app. cbn [length]. lia. }
    destruct Hw as [Hw [t ->]].
    rewrite Hsplit in Hg. rewrite Hsplit, (utf16_len_app p0 (c0 :: m)).
    rewrite (host_backoff_spec (c0 :: m));
      [| lia | exact Hw | lia | right; exists c0, m; split; [reflexivity|lia]
       | exact (host_groups_suffix _ _ _ Hg)].
    cbn [mbind option_bind].
    rewrite utf16_app, <- app_assoc.
    change (utf16_len p0) with (length (utf16 p0)).
    rewrite host_fill.
    2:{ rewrite utf16_length. lia. }
    2:{ rewrite app_assoc, <- utf16_app, length_app, repeat_length, utf16_length. lia. }
    cbn [mbind option_bind]. eexists. split; [reflexivity|]. split.
    { rewrite u16_bytes_length, !length_app, repeat_length. cbn [length]. rewrite utf16_length. lia. }
    split.
    { intros H. rewrite !utf16_len_app, utf16_len_single in Hlen.
      rewrite !utf16_len_app, utf16_len_cons in H. lia. }
    intros _. exists p0, c0, (m ++ r). split.
    { change (c :: r) with ([c] ++ r). rewrite app_assoc, Hsplit, <- app_assoc. reflexivity. }
    rewrite utf16_len_app, utf16_len_single. split; [lia|]. rewrite utf16_length. reflexivity.
Qed.

(** ** Round trips *)

(** C2 (amended): decoding the encoding of a valid value gives the value
    back and consumes every encoded byte, and the padding bytes of the
    encoding are zero, for the header (byte 7 is zero), the discover
    response (its 4-byte prefix is the constant [00 01 08 00]), the poll
    interrupt (bytes 0..7, 13..16 and 17..20 are zero) and the poll command
    (the [pad_*] and [unk_*] fields, zero apart from the constants
    [00 00 00 14] and [00 00 00 10]).  For the full poll command the
    timestamp must have a year in 0..9999 and no nanosecond part. *)
Theorem serdes_roundtrip :
  (forall h, Header_valid h ->
     header_deserialize (header_to_raw h) = Ok (h, length (header_to_raw h)) /\
     slice (header_to_raw h) 7 8 = [0]) /\
  (forall r, DiscoverResponse_valid r ->
     discover_deserialize (discover_serialize r) = Ok (r, length (discover_serialize r)) /\
     slice (discover_serialize r) 0 4 = [0; 1; 8; 0]) /\
  (forall i,
     sized_deserialize RawInterrupt_SIZE interrupt_try_from (interrupt_to_raw i) =
       Ok (i, length (interrupt_to_raw i)) /\
     slice (interrupt_to_raw i) 0 7 = repeat 0 7 /\ slice (interrupt_to_raw i) 13 16 = repeat 0 3 /\
     slice (interrupt_to_raw i) 17 20 = repeat 0 3) /\
  (forall c, Command_valid c -> (forall s h d, c = FullCommand s h d -> nanosecond d = 0) ->
     exists bs, Command_serialize c = Some bs /\ Command_deserialize bs = Some (Ok (c, length bs)) /\
       Command_reserved c bs).
Proof.
  split; [intros h Hh; exact (header_roundtrip h Hh)|].
  split; [exact discover_roundtrip|].
  split; [exact interrupt_roundtrip|].
  exact Command_roundtrip.
Qed.

Lemma serdes_roundtrip_witness :
  header_deserialize (header_to_raw
    {| packet_type := ScannerCommand; payload_type := Poll; error := 0; sequence := 7;
       job_id := Some 3; payload_size := 20 |}) =
  Ok ({| packet_type := ScannerCommand; payload_type := Poll; error := 0; sequence := 7;
         job_id := Some 3; payload_size := 20 |}, 16%nat).
Proof.
  refine (proj1 (proj1 serdes_roundtrip _ _)).
  unfold Header_valid; cbn. split; [lia|split; [lia|split; [|lia]]].
  intros j Hj. injection Hj as <-. lia.
Defined.

(** The identity response does not round-trip: its length prefix leaves
    out the 2 bytes of the prefix itself, so [{"A": "B"}] is read back as
    [{"A": ""}] from the first 4 of its 6 bytes.  A timestamp's nanosecond
    part is not encoded and reads back as 0. *)
Lemma roundtrip_losses :
  identity_serialize identity_rt_map = Some [0; 4; 65; 58; 66; 59] /\
  identity_deserialize [0; 4; 65; 58; 66; 59] = Some (Ok ({[ [65] := [] ]}, 4%nat)) /\
  ({[ [65] := [] ]} : IdentityMap) <> identity_rt_map /\
  (exists bs, Command_serialize nanos_command = Some bs /\
     Command_deserialize bs =
       Some (Ok (FullCommand 7 (repeat 0 64) {| year := 2024; month := 5; day := 17; hour := 9;
                                                minute := 30; second := 0; nanosecond := 0 |},
                 116%nat))) /\
  nanosecond nanos_datetime = 1.
Proof.
  split; [vm_compute; reflexivity|].
  split; [vm_compute; reflexivity|].
  split.
  { intros H. apply (f_equal (lookup [65])) in H. unfold identity_rt_map in H.
    rewrite !lookup_singleton in H. discriminate. }
  split; [|reflexivity].
  eexists. split; [reflexivity|]. vm_compute. reflexivity.
Qed.

(** * Further properties *)

(** ** Buffers and offsets *)

Lemma byte_at_drop (n i : nat) (l : bytes) : byte_at (skipn n l) i = byte_at l (n + i).
Proof. unfold byte_at. rewrite nth_skipn. reflexivity. Qed.

Lemma length_lt_ltb (a b : nat) : (a < b)%nat -> (a <? b)%nat = true.
Proof. apply Nat.ltb_lt. Qed.

Lemma length_ge_ltb (a b : nat) : (b <= a)%nat -> (a <? b)%nat = false.
Proof. apply Nat.ltb_ge. Qed.

(** ** [SizedDeserialize] *)

Lemma sized_deserialize_app {T} (n : nat) (f : bytes -> result T FormatError) (buf extra : bytes) :
  (n <= length buf)%nat -> sized_deserialize n f (buf ++ extra) = sized_deserialize n f buf.
Proof.
  intros Hl. unfold sized_deserialize.
  rewrite length_app, !length_ge_ltb by lia. rewrite take_app_le by exact Hl. reflexivity.
Qed.

(** X1: the blanket [Deserialize] of a [SizedDeserialize] type fails with
    [UnexpectedEnd { expected: SIZE, actual: len }] on a buffer shorter
    than [SIZE]; otherwise it consumes exactly [SIZE] bytes and ignores
    whatever follows them. *)
Theorem sized_deserialize_prefix {T} (n : nat) (f : bytes -> result T FormatError) (buf extra : bytes) :
  ((length buf < n)%nat -> sized_deserialize n f buf = Err (UnexpectedEnd n (length buf))) /\
  ((n <= length buf)%nat -> sized_deserialize n f (buf ++ extra) = sized_deserialize n f buf) /\
  (forall x m, sized_deserialize n f buf = Ok (x, m) -> m = n).
Proof.
  split; [|split].
  - intros Hl. unfold sized_deserialize. rewrite length_lt_ltb by exact Hl. reflexivity.
  - apply sized_deserialize_app.
  - intros x m. unfold sized_deserialize. destruct (length buf <? n)%nat; [discriminate|].
    destruct (f (firstn n buf)); cbn; intros H; congruence.
Qed.

(** X2: [OffsetError::offset_by] on a [ParseError] composes additively
    and shifting by 0 changes nothing. *)
Theorem parse_offset_by_compose (e : ParseError) (a b : nat) :
  parse_offset_by (parse_offset_by e a) b = parse_offset_by e (a + b) /\
  parse_offset_by e 0 = e.
Proof.
  destruct e as [[byte o|s t]|x y]; cbn; split; rewrite ?Nat.add_assoc, ?Nat.add_0_r; reflexivity.
Qed.

(** ** Header errors *)

(** X3: a header buffer shorter than 16 bytes fails with
    [UnexpectedEnd { expected: 16, actual: len }]; a buffer of at least
    16 bytes not starting with [BJNP] fails with [InvalidSlice 0..4],
    whatever the other bytes are. *)
Theorem header_deserialize_errors (buf : bytes) :
  ((length buf < 16)%nat -> header_deserialize buf = Err (UnexpectedEnd 16 (length buf))) /\
  ((16 <= length buf)%nat -> firstn 4 buf <> MAGIC ->
     header_deserialize buf = Err (InvalidFormat (InvalidSlice 0 4))).
Proof.
  unfold header_deserialize, sized_deserialize, RawHeader_SIZE. split.
  - intros Hl. rewrite length_lt_ltb by exact Hl. reflexivity.
  - intros Hl Hm. rewrite length_ge_ltb by exact Hl.
    unfold header_try_from. rewrite take_take. cbn [Nat.min].
    rewrite bool_decide_eq_false_2 by exact Hm. reflexivity.
Qed.

(** ** Discover response errors *)

Lemma discover_header_byte (buf : bytes) (i : nat) :
  (i < 6)%nat -> byte_at (firstn RawResponseHeader_SIZE buf) i = byte_at buf i.
Proof. intros Hi. apply byte_at_take. unfold RawResponseHeader_SIZE. exact Hi. Qed.

(** X4: decoding a discover response fails on a buffer shorter than its
    6-byte header, on a MAC length byte (offset 4) other than 6 or 8, on a
    buffer cut inside the MAC address, on an IP length byte (offset 5)
    other than 4 or 16, and on a buffer cut inside the IP address.  The
    [expected] size of a cut buffer counts from the start of the response,
    its [actual] size only what follows the parts already read. *)
Theorem discover_deserialize_errors (buf : bytes) :
  ((length buf < 6)%nat -> discover_deserialize buf = Err (UnexpectedEnd 6 (length buf))) /\
  ((6 <= length buf)%nat -> byte_at buf 4 <> 6 -> byte_at buf 4 <> 8 ->
     discover_deserialize buf = Err (InvalidFormat (InvalidByte (byte_at buf 4) 4))) /\
  (forall m : nat, (m = 6 \/ m = 8)%nat -> byte_at buf 4 = Z.of_nat m ->
     (6 <= length buf < 6 + m)%nat ->
     discover_deserialize buf = Err (UnexpectedEnd (6 + m) (length buf - 6))) /\
  (forall m : nat, (m = 6 \/ m = 8)%nat -> byte_at buf 4 = Z.of_nat m ->
     (6 + m <= length buf)%nat -> byte_at buf 5 <> 4 -> byte_at buf 5 <> 16 ->
     discover_deserialize buf = Err (InvalidFormat (InvalidByte (byte_at buf 5) 5))) /\
  (forall m k : nat, (m = 6 \/ m = 8)%nat -> (k = 4 \/ k = 16)%nat ->
     byte_at buf 4 = Z.of_nat m -> byte_at buf 5 = Z.of_nat k ->
     (6 + m <= length buf < 6 + m + k)%nat ->
     discover_deserialize buf = Err (UnexpectedEnd (6 + m + k) (length buf - 6 - m))).
Proof.
  unfold discover_deserialize, array_deserialize, sized_deserialize.
  split; [|split; [|split; [|split]]].
  - intros Hl. unfold RawResponseHeader_SIZE. rewrite length_lt_ltb by exact Hl. reflexivity.
  - intros Hl H6 H8. unfold RawResponseHeader_SIZE at 1.
    rewrite length_ge_ltb by exact Hl. cbn [map_err map_ok bind].
    rewrite discover_header_byte by lia.
    destruct (byte_at buf 4) eqn:E; try reflexivity;
      repeat (destruct p; try reflexivity); congruence.
  - intros m Hm Hb Hl. unfold RawResponseHeader_SIZE at 1.
    rewrite length_ge_ltb by lia. cbn [map_err map_ok bind].
    rewrite discover_header_byte by lia. unfold RawResponseHeader_SIZE.
    destruct Hm as [-> | ->]; change (Z.of_nat 6) with 6 in Hb; change (Z.of_nat 8) with 8 in Hb;
      rewrite Hb, length_skipn, length_lt_ltb by lia; cbn; f_equal; lia.
  - intros m Hm Hb Hl H4 H16. unfold RawResponseHeader_SIZE at 1.
    rewrite length_ge_ltb by lia. cbn [map_err map_ok bind].
    rewrite !discover_header_byte by lia. unfold RawResponseHeader_SIZE.
    destruct Hm as [-> | ->]; change (Z.of_nat 6) with 6 in Hb; change (Z.of_nat 8) with 8 in Hb;
      rewrite Hb, length_skipn, length_ge_ltb by lia; cbn [map_err map_ok bind];
      destruct (byte_at buf 5) eqn:E; try reflexivity;
      repeat (destruct p; try reflexivity); congruence.
  - intros m k Hm Hk Hb Hb5 Hl. unfold RawResponseHeader_SIZE at 1.
    rewrite length_ge_ltb by lia. cbn [map_err map_ok bind].
    rewrite !discover_header_byte by lia. unfold RawResponseHeader_SIZE.
    destruct Hm as [-> | ->]; change (Z.of_nat 6) with 6 in Hb; change (Z.of_nat 8) with 8 in Hb;
      rewrite Hb, length_skipn, length_ge_ltb by lia; cbn [map_err map_ok bind];
      destruct Hk as [-> | ->]; change (Z.of_nat 4) with 4 in Hb5; change (Z.of_nat 16) with 16 in Hb5;
      rewrite Hb5, !length_skipn, length_lt_ltb by lia; cbn; f_equal; lia.
Qed.

(** ** Identity response errors *)

(** X5: decoding an identity response fails with
    [UnexpectedEnd { expected: 2, actual: len }] on a buffer shorter than
    its 2-byte length prefix, with [InvalidSlice 0..2] when the prefix is
    below 2, and with [UnexpectedEnd { expected: L, actual: len - 2 }] when
    the buffer is shorter than the length [L] the prefix announces. *)
Theorem identity_deserialize_errors (buf : bytes) :
  ((length buf < 2)%nat -> identity_deserialize buf = Some (Err (UnexpectedEnd 2 (length buf)))) /\
  ((2 <= length buf)%nat -> u16_from_be_bytes buf 0 < 2 ->
     identity_deserialize buf = Some (Err (InvalidFormat (InvalidSlice 0 2)))) /\
  ((2 <= length buf)%nat -> 2 <= u16_from_be_bytes buf 0 ->
     (length buf < Z.to_nat (u16_from_be_bytes buf 0))%nat ->
     identity_deserialize buf =
       Some (Err (UnexpectedEnd (Z.to_nat (u16_from_be_bytes buf 0)) (length buf - 2)))).
Proof.
  unfold identity_deserialize. split; [|split].
  - intros Hl. rewrite length_lt_ltb by exact Hl. reflexivity.
  - intros Hl Hv. rewrite length_ge_ltb by exact Hl.
    rewrite length_lt_ltb by lia. reflexivity.
  - intros Hl Hv Hlen. rewrite length_ge_ltb by exact Hl.
    rewrite length_ge_ltb by lia. rewrite length_skipn, length_lt_ltb by lia.
    cbn. rewrite Nat.sub_add by lia. reflexivity.
Qed.

(** ** Poll command errors *)

(** X6: decoding a poll command fails with
    [UnexpectedEnd { expected: 2, actual: len }] on a buffer shorter than
    the type tag, and, for a known tag, with
    [UnexpectedEnd { expected: SIZE + 2, actual: len - 2 }] on a buffer
    too short for the variant's raw body of [SIZE] bytes.  A successful
    decode consumes the tag and the whole raw body. *)
Theorem Command_deserialize_short (buf : bytes) :
  ((length buf < 2)%nat -> Command_deserialize buf = Some (Err (UnexpectedEnd 2 (length buf)))) /\
  (forall pt, PollType_try_from (u16_from_be_bytes buf 0) = Ok pt ->
     (2 <= length buf < 2 + PollType_body_size pt)%nat ->
     Command_deserialize buf =
       Some (Err (UnexpectedEnd (2 + PollType_body_size pt) (length buf - 2)))) /\
  (forall c n, Command_deserialize buf = Some (Ok (c, n)) -> n = Command_size c).
Proof.
  unfold Command_deserialize. split; [|split].
  - intros Hl. rewrite length_lt_ltb by exact Hl. reflexivity.
  - intros pt Hpt Hl. rewrite length_ge_ltb by lia. rewrite Hpt.
    unfold sized_deserialize_opt. rewrite length_skipn.
    destruct pt; cbn [PollType_body_size] in *; rewrite length_lt_ltb by lia;
      cbn; f_equal; f_equal; lia.
  - intros c n. destruct (length buf <? 2)%nat; [discriminate|].
    destruct (PollType_try_from (u16_from_be_bytes buf 0)) as [pt|e]; [|discriminate].
    unfold sized_deserialize_opt.
    destruct pt; destruct (length (skipn 2 buf) <? _)%nat; try discriminate; cbn;
      [intros H; injection H as <- <-; reflexivity
      |intros H; injection H as <- <-; reflexivity
      | |intros H; injection H as <- <-; reflexivity].
    unfold FullCommand_try_from. destruct (datetime_parse_items _) as [p|]; cbn; [|discriminate].
    destruct (datetime_from_parsed p); cbn; [|discriminate].
    intros H; injection H as <- <-; reflexivity.
Qed.




(** ** UTF-8 validation *)

Lemma utf8_check_ascii (p r : bytes) : forall (fuel i : nat),
  Forall (fun c => 0 <= c < 128) p ->
  utf8_check_from (length p + fuel) i (p ++ r) = utf8_check_from fuel (i + length p) r.
Proof.
  induction p as [|c p IH]; intros fuel i Hp.
  - cbn. rewrite Nat.add_0_r. reflexivity.
  - inversion Hp as [|? ? Hc Hp']; subst. cbn [length app Nat.add utf8_check_from].
    rewrite (proj2 (Z.ltb_lt c 128)) by lia. rewrite IH by exact Hp'.
    f_equal. lia.
Qed.

Lemma utf8_check_bad_lead (b : Z) (r : bytes) (fuel i : nat) :
  (128 <= b < 194 \/ 245 <= b) -> utf8_check_from (S fuel) i (b :: r) = Some (i, Some 1%nat).
Proof.
  intros Hb. cbn [utf8_check_from].
  rewrite (proj2 (Z.ltb_ge b 128)) by lia.
  destruct Hb as [Hb|Hb].
  - rewrite (proj2 (Z.leb_gt 194 b)) by lia.
    rewrite (proj2 (Z.leb_gt 224 b)) by lia.
    rewrite (proj2 (Z.leb_gt 240 b)) by lia. reflexivity.
  - rewrite (proj2 (Z.leb_gt b 223)) by lia.
    rewrite (proj2 (Z.leb_gt b 239)) by lia.
    rewrite (proj2 (Z.leb_gt b 244)) by lia.
    rewrite !andb_false_r. reflexivity.
Qed.

(** X8: an identity text holding a byte that cannot start a UTF-8
    sequence ([80..C1] or [F5..FF]) after a run of ASCII bytes is
    rejected with [InvalidByte] naming the byte BEFORE the bad one and its
    offset in the text (not in the buffer); when the bad byte comes first,
    [valid_up_to() - 1] underflows and decoding panics. *)
Theorem identity_bad_utf8_lead (p r : bytes) (b : Z) :
  Forall (fun c => 0 <= c < 128) p -> (128 <= b < 194 \/ 245 <= b < 256) ->
  Z.of_nat (length (p ++ b :: r)) + 2 < 2 ^ 16 ->
  (p = [] ->
     identity_deserialize (u16_to_be_bytes (Z.of_nat (length (p ++ b :: r)) + 2) ++ p ++ b :: r)
     = None) /\
  (p <> [] ->
     identity_deserialize (u16_to_be_bytes (Z.of_nat (length (p ++ b :: r)) + 2) ++ p ++ b :: r)
     = Some (Err (InvalidFormat (InvalidByte (byte_at p (length p - 1)) (length p - 1))))).
Proof.
  intros Hp Hb Hlen.
  assert (Hid : identity_deserialize (u16_to_be_bytes (Z.of_nat (length (p ++ b :: r)) + 2) ++ p ++ b :: r)
    = if (length p =? 0)%nat then None
      else Some (Err (InvalidFormat (InvalidByte (byte_at (p ++ b :: r) (length p - 1)) (length p - 1))))).
  { unfold identity_deserialize.
    rewrite (u16_roundtrip _ (p ++ b :: r)) by lia.
    replace (Z.to_nat (Z.of_nat (length (p ++ b :: r)) + 2)) with (length (p ++ b :: r) + 2)%nat by lia.
    cbn [length u16_to_be_bytes app skipn].
    rewrite !length_ge_ltb by (rewrite ?length_app; cbn [length]; lia).
    rewrite skipn_O, Nat.add_sub, length_ge_ltb by lia.
    rewrite firstn_all.
    unfold utf8_check. rewrite length_app. cbn [length].
    rewrite utf8_check_ascii by exact Hp. rewrite utf8_check_bad_lead by lia.
    cbn [Nat.ltb Nat.leb]. reflexivity. }
  split.
  - intros ->. rewrite Hid. reflexivity.
  - intros Hne. rewrite Hid.
    destruct p as [|c p']; [congruence|]. cbn [length Nat.eqb].
    unfold byte_at. rewrite app_nth1 by (cbn; lia). reflexivity.
Qed.

Lemma utf8_check_from_bound (fuel : nat) : forall (i : nat) (bs : bytes) (u : nat) (x : option nat),
  utf8_check_from fuel i bs = Some (u, x) -> (i <= u < i + length bs)%nat.
Proof.
  induction fuel as [|fuel IH]; intros i bs u x H; [discriminate|].
  destruct bs as [|b0 rest]; [discriminate|]. cbn [utf8_check_from length] in H.
  repeat match type of H with
  | context [if ?c then _ else _] => destruct c
  | context [match ?l with [] => _ | _ :: _ => _ end] => destruct l
  end; cbn [length] in *;
  try (injection H as <- <-; lia);
  apply IH in H; cbn [length] in H; lia.
Qed.

(** X9: an identity response is read from its length prefix and exactly
    the [L - 2] bytes of text the prefix [L] announces: bytes after them
    change nothing, and a successful decode reports [L] bytes consumed. *)
Theorem identity_deserialize_prefix (body extra : bytes) :
  Z.of_nat (length body) + 2 < 2 ^ 16 ->
  identity_deserialize (u16_to_be_bytes (Z.of_nat (length body) + 2) ++ body ++ extra)
  = identity_deserialize (u16_to_be_bytes (Z.of_nat (length body) + 2) ++ body) /\
  (forall m n, identity_deserialize (u16_to_be_bytes (Z.of_nat (length body) + 2) ++ body)
               = Some (Ok (m, n)) -> n = (length body + 2)%nat).
Proof.
  intros Hlen. unfold identity_deserialize.
  rewrite !u16_roundtrip by lia.
  replace (Z.to_nat (Z.of_nat (length body) + 2)) with (length body + 2)%nat by lia.
  cbn [length u16_to_be_bytes app skipn].
  rewrite !length_ge_ltb by (rewrite ?length_app; lia).
  rewrite !skipn_O, !Nat.add_sub.
  rewrite !length_ge_ltb by (rewrite ?length_app; lia).
  rewrite take_app_length, firstn_all.
  split.
  - destruct (utf8_check body) as [[u [len|]]|] eqn:E; try reflexivity.
    destruct (1 <? len)%nat; [reflexivity|]. destruct (u =? 0)%nat; [reflexivity|].
    apply utf8_check_from_bound in E.
    unfold byte_at. rewrite app_nth1 by lia. reflexivity.
  - intros m n. destruct (utf8_check body) as [[u [len|]]|];
      repeat case_match; intros Hok; try discriminate; injection Hok as _ <-; lia.
Qed.

(** ** Identity serialization *)

Lemma identity_records_length (l : list (bytes * bytes)) :
  length (concat ((fun '(k, v) => k ++ [58] ++ v ++ [59]) <$> l))
  = foldr (uncurry (fun k v acc => (length k + length v + 2 + acc)%nat)) 0%nat l.
Proof.
  induction l as [|[k v] l IH]; [reflexivity|].
  cbn [fmap list_fmap concat foldr uncurry]. rewrite !length_app, IH. cbn [length]. lia.
Qed.

(** X10: serializing an identity response fails (an [io::Error]) exactly
    when [as_str_len], the total length of its [KEY:VALUE;] records,
    exceeds [u16::MAX]; otherwise it writes [Serialize::size] bytes: the
    2-byte prefix holding [as_str_len] followed by the records. *)
Theorem identity_serialize_size (m : IdentityMap) :
  (identity_serialize m = None <-> 65535 < Z.of_nat (identity_as_str_len m)) /\
  (forall bs, identity_serialize m = Some bs ->
     length bs = identity_size m /\ u16_from_be_bytes bs 0 = Z.of_nat (identity_as_str_len m)).
Proof.
  unfold identity_serialize. split.
  - destruct (65535 <? Z.of_nat (identity_as_str_len m)) eqn:E.
    + apply Z.ltb_lt in E. split; [intros _; exact E|reflexivity].
    + apply Z.ltb_ge in E. split; [discriminate|lia].
  - intros bs. destruct (65535 <? Z.of_nat (identity_as_str_len m)) eqn:E; [discriminate|].
    apply Z.ltb_ge in E. intros H; injection H as <-. split.
    + cbn [length]. pose proof (identity_records_length (map_to_list m)) as Hc. cbn [app] in Hc. rewrite Hc.
      unfold identity_size, identity_as_str_len. rewrite map_fold_foldr. reflexivity.
    + apply u16_roundtrip. lia.
Qed.

(** ** Packets *)

Lemma header_deserialize_app (h : Header) (rest : bytes) : Header_valid h ->
  header_deserialize (header_to_raw h ++ rest) = Ok (h, 16%nat).
Proof.
  intros Hv. unfold header_deserialize. rewrite sized_deserialize_app.
  - apply (header_roundtrip h Hv).
  - unfold header_to_raw, u16_to_be_bytes, u32_to_be_bytes. len_simpl. reflexivity.
Qed.

(** X11: a packet built by [PacketBuilder::build] serializes to its
    16-byte header followed by the payload's bytes, and
    [PacketHeaderOnly::parse] of those bytes, whatever follows them, gives
    back the header and exactly the payload's bytes, as long as the header
    fields fit their wire widths and the payload's [size] is the number of
    bytes it writes and fits in a [u32]. *)
Theorem packet_build_parse {T} `{Serialize T} (b : PacketBuilder) (p : T) (bs extra : bytes) :
  Header_valid (pk_header (PacketBuilder_build b p)) -> serialize p = Some bs ->
  length bs = size p -> Z.of_nat (size p) < 2 ^ 32 ->
  packet_serialize (PacketBuilder_build b p) = Some (header_to_raw (pk_header (PacketBuilder_build b p)) ++ bs) /\
  PacketHeaderOnly_parse (header_to_raw (pk_header (PacketBuilder_build b p)) ++ bs ++ extra)
  = Ok {| pho_header := pk_header (PacketBuilder_build b p); pho_payload := bs |}.
Proof.
  intros Hv Hs Hl Hsz. split.
  - unfold packet_serialize. cbn [pk_payload PacketBuilder_build]. rewrite Hs. reflexivity.
  - unfold PacketHeaderOnly_parse. rewrite header_deserialize_app by exact Hv. cbn [bind].
    assert (Hp : Z.to_nat (payload_size (pk_header (PacketBuilder_build b p))) = length bs).
    { cbn. rewrite Z.mod_small by lia. rewrite Hl. apply Nat2Z.id. }
    rewrite Hp. assert (Hh : length (header_to_raw (pk_header (PacketBuilder_build b p))) = 16%nat)
      by (unfold header_to_raw, u16_to_be_bytes, u32_to_be_bytes; len_simpl; reflexivity).
    rewrite !length_app, Hh. rewrite (proj2 (Nat.leb_le _ _)) by lia.
    unfold slice. rewrite Nat.add_sub', <- Hh, drop_app_length, take_app_length. reflexivity.
Qed.

(** ** The channel *)

(** X12: what [Channel::send] puts on the wire, when received by
    [Channel::recv] as the same payload type, decodes back to the payload
    sent, for a payload whose [size] is the number of bytes it writes,
    whose bytes decode back to it, and whose packet fits the 65536-byte
    receive buffer; the channel's sequence number is then one more. *)
Theorem channel_send_recv {T} `{Serialize T} `{Deserialize T}
    (ch : Channel) (yt : PayloadType) (p : T) (bs : bytes) (n : nat) :
  0 <= ch_sequence ch < 2 ^ 16 -> serialize p = Some bs -> length bs = size p ->
  Z.of_nat (16 + size p) <= 65536 -> deserialize bs = Ok (p, n) ->
  exists dgram, Channel_send_step ch yt p true =
                  Some (true, Some dgram, {| ch_sequence := (ch_sequence ch + 1) mod 2 ^ 16 |}) /\
                Channel_recv_datagram (T := T) dgram = Ok p.
Proof.
  intros Hseq Hs Hl Hmax Hd.
  set (pk := Channel_packet ch yt p).
  assert (Hv : Header_valid (pk_header pk)).
  { unfold Header_valid; cbn. split; [lia|]. split; [exact Hseq|]. split; [discriminate|].
    apply Z.mod_pos_bound. lia. }
  assert (Hsz : Z.of_nat (size p) < 2 ^ 32) by (change (2 ^ 32) with 4294967296; lia).
  exists (header_to_raw (pk_header pk) ++ bs). split.
  - unfold Channel_send_step. fold pk. unfold packet_serialize. cbn [pk_payload pk Channel_packet PacketBuilder_build].
    rewrite Hs. reflexivity.
  - unfold Channel_recv_datagram.
    assert (Hh : length (header_to_raw (pk_header pk)) = 16%nat)
      by (unfold header_to_raw, u16_to_be_bytes, u32_to_be_bytes; len_simpl; reflexivity).
    rewrite firstn_all2 by (rewrite length_app, Hh; apply Nat2Z.inj_le; rewrite Z2Nat.id by lia; lia).
    unfold PacketHeaderOnly_parse.
    rewrite header_deserialize_app by exact Hv. cbn [bind].
    assert (Hp : Z.to_nat (payload_size (pk_header pk)) = length bs).
    { cbn. rewrite Z.mod_small by lia. rewrite Hl. apply Nat2Z.id. }
    rewrite Hp, !length_app, Hh. rewrite (proj2 (Nat.leb_le _ _)) by (cbn; lia).
    unfold slice. rewrite Nat.add_sub', <- Hh, drop_app_length, firstn_all.
    cbn [map_err bind pho_header pho_payload].
    replace (error (pk_header pk)) with 0 by reflexivity. cbn [Z.eqb orb negb].
    unfold Packet_try_from. cbn [pho_payload]. rewrite Hd. reflexivity.
Qed.

(** ** Enumerated fields *)

Lemma PollType_try_from_ok (v : Z) (t : PollType) : PollType_try_from v = Ok t -> PollType_to_u16 t = v.
Proof. unfold PollType_try_from. enum_cases. Qed.

Lemma PollType_roundtrip (t : PollType) : PollType_try_from (PollType_to_u16 t) = Ok t.
Proof. destruct t; reflexivity. Qed.

(** X13: every enumerated wire field decodes a value [v] to the variant
    [t] exactly when [t] encodes to [v]: decoding inverts encoding and
    accepts nothing else. *)
Theorem enum_decode_iff :
  (forall v t, PacketType_try_from v = Ok t <-> PacketType_to_u8 t = v) /\
  (forall v t, PayloadType_try_from v = Ok t <-> PayloadType_to_u8 t = v) /\
  (forall v t, PollType_try_from v = Ok t <-> PollType_to_u16 t = v) /\
  (forall v t, ColorMode_try_from v = Ok t <-> ColorMode_to_u8 t = v) /\
  (forall v t, Size_try_from v = Ok t <-> Size_to_u8 t = v) /\
  (forall v t, Format_try_from v = Ok t <-> Format_to_u8 t = v) /\
  (forall v t, DPI_try_from v = Ok t <-> DPI_to_u8 t = v) /\
  (forall v t, Source_try_from v = Ok t <-> Source_to_u8 t = v) /\
  (forall v t, FeederType_try_from v = Ok t <-> FeederType_to_u8 t = v) /\
  (forall v t, FeederOrientation_try_from v = Ok t <-> FeederOrientation_to_u8 t = v).
Proof.
  repeat split; intros H; subst;
    first
      [ apply PacketType_try_from_ok; exact H | apply PacketType_roundtrip
      | apply PayloadType_try_from_ok; exact H | apply PayloadType_roundtrip
      | apply PollType_try_from_ok; exact H | apply PollType_roundtrip
      | apply ColorMode_try_from_ok; exact H | apply ColorMode_roundtrip
      | apply Size_try_from_ok; exact H | apply Size_roundtrip
      | apply Format_try_from_ok; exact H | apply Format_roundtrip
      | apply DPI_try_from_ok; exact H | apply DPI_roundtrip
      | apply Source_try_from_ok; exact H | apply Source_roundtrip
      | apply FeederType_try_from_ok; exact H | apply FeederType_roundtrip
      | apply FeederOrientation_try_from_ok; exact H | apply FeederOrientation_roundtrip ].
Qed.

(** ** Reserved bytes of a poll response *)

(** X14: decoding a poll response reads only the status (bytes 0..4) and
    then, when bit [0x8000] is clear, the session id (4..8); when it is
    set, the action id (12..16) and the interrupt's seven field bytes (23
    to 28 and 32).  The [unk_*] bytes are never looked at. *)
Theorem poll_response_reads (raw raw' : bytes) :
  (forall i, (i < 4)%nat -> byte_at raw i = byte_at raw' i) ->
  (Z.land (u32_from_be_bytes raw 0) 32768 = 0 ->
     (forall i, (4 <= i < 8)%nat -> byte_at raw i = byte_at raw' i) ->
     poll_response_try_from raw = poll_response_try_from raw') /\
  (Z.land (u32_from_be_bytes raw 0) 32768 <> 0 ->
     (forall i, In i [12; 13; 14; 15; 23; 24; 25; 26; 27; 28; 32]%nat -> byte_at raw i = byte_at raw' i) ->
     poll_response_try_from raw = poll_response_try_from raw').
Proof.
  intros Hst.
  assert (Hs : u32_from_be_bytes raw 0 = u32_from_be_bytes raw' 0)
    by (unfold u32_from_be_bytes; rewrite !Hst by lia; reflexivity).
  unfold poll_response_try_from. rewrite <- Hs.
  remember (u32_from_be_bytes raw 0) as st eqn:Est. clear Est Hs. split.
  - intros Hb Hsid. rewrite Hb. cbn [Z.eqb negb].
    unfold u32_from_be_bytes. rewrite !Hsid by lia. reflexivity.
  - intros Hb Hf. apply Z.eqb_neq in Hb. rewrite Hb. cbn [negb].
    assert (Ha : u32_from_be_bytes raw 12 = u32_from_be_bytes raw' 12)
      by (unfold u32_from_be_bytes; rewrite !Hf by (cbn; tauto); reflexivity).
    rewrite Ha. unfold interrupt_try_from. rewrite !byte_at_drop.
    cbn [Nat.add]. rewrite !Hf by (cbn; tauto). reflexivity.
Qed.

(** ** [CommandBuilder] *)

(** X15: [CommandBuilder::build] returns a command exactly when the
    fields its poll type needs are set (none for [Empty], the host for
    [HostOnly], session id, host and datetime for [Full], session id, host
    and action id for [Reset]); the command has the builder's poll type and
    carries those fields and no others. *)
Theorem CommandBuilder_build_spec (b : CommandBuilder) :
  (CommandBuilder_build b = None <->
     match cb_poll_type b with
     | PEmpty => False
     | PHostOnly => cb_host b = None
     | PFull => cb_session_id b = None \/ cb_host b = None \/ cb_datetime b = None
     | PReset => cb_session_id b = None \/ cb_host b = None \/ cb_action_id b = None
     end) /\
  (forall c, CommandBuilder_build b = Some c ->
     Command_poll_type c = cb_poll_type b /\
     Command_host c = (match cb_poll_type b with PEmpty => None | _ => cb_host b end) /\
     Command_session_id c = (match cb_poll_type b with PFull | PReset => cb_session_id b | _ => None end) /\
     Command_action_id c = (match cb_poll_type b with PReset => cb_action_id b | _ => None end) /\
     Command_datetime c = (match cb_poll_type b with PFull => cb_datetime b | _ => None end)).
Proof.
  destruct b as [pt [s|] [h|] [a|] [d|]]; destruct pt; cbn;
    (split; [split; [intros H; try discriminate H; tauto | intros H; try tauto;
                     repeat destruct H as [H|H]; discriminate H] |]);
    intros c Hc; try discriminate Hc; injection Hc as <-; repeat split.
Qed.

(** ** [Listener::try_init] *)

(** X16: when both sends go out and both replies decode (a discover
    response, then a poll response [r]), [try_init] restarts the sequence
    at 0 and puts on the wire exactly the discover packet (sequence 0, no
    payload) and the host-only poll command (sequence 1, 76 bytes: tag 1,
    six zero bytes, the host, four zero bytes).  It ends with sequence 2
    and consumes the two send outcomes and the two replies.  It succeeds
    and stores [r]'s session id when [r] has one; otherwise it fails with
    "unexpected interrupt during first poll" and keeps the old session id. *)
Theorem try_init_spec (config : ListenConfig) (mw : Z) (l : Listener) (so : list bool)
    (rq : list (option bytes)) (dg1 dg2 : bytes) (d : DiscoverResponse) (r : PollResponse) :
  w_send_ok (l_world l) = true :: true :: so ->
  w_recv (l_world l) = Some dg1 :: Some dg2 :: rq ->
  Channel_recv_datagram (T := DiscoverResponse) dg1 = Ok d ->
  Channel_recv_datagram (T := PollResponse) dg2 = Ok r ->
  exists l', try_init config mw l =
      Some (match session_id r with Some _ => Ok tt | None => Err EInterruptDuringInit end, l') /\
    ch_sequence (l_channel l') = 2 /\
    l_session_id l' = default (l_session_id l) (session_id r) /\
    w_send_ok (l_world l') = so /\ w_recv (l_world l') = rq /\
    launched_of l' = launched_of l /\
    wire_of l' = wire_of l ++
      [header_to_raw {| packet_type := ScannerCommand; payload_type := Discover; error := 0;
                        sequence := 0; job_id := None; payload_size := 0 |};
       header_to_raw {| packet_type := ScannerCommand; payload_type := Poll; error := 0;
                        sequence := 1; job_id := None; payload_size := 76 |}
       ++ u16_to_be_bytes 1 ++ HostOnlyCommand_to_raw (hostname config)].
Proof.
  intros Hok Hq Hd Hr.
  destruct l as [ch sid [so0 rq0 wire la now]]; cbn in Hok, Hq. subst so0 rq0.
  unfold try_init.
  unfold mbind, M_bind, mret, M_ret, unwrap, send, recv, reset_sequence, throw, set_session_id.
  cbn -[Channel_recv_datagram header_to_raw HostOnlyCommand_to_raw u16_to_be_bytes].
  rewrite Hd. cbn -[Channel_recv_datagram header_to_raw HostOnlyCommand_to_raw u16_to_be_bytes].
  rewrite Hr. unfold launched_of, wire_of.
  destruct (session_id r); eexists; (split; [reflexivity|]); cbn; rewrite <- app_assoc;
    repeat split.
Qed.

(** ** Panics of the listener *)

Lemma bind_nopanic {A B} (k : A -> M B) (m : M A) (l : Listener) :
  m l <> None -> (forall a l', m l = Some (Ok a, l') -> k a l' <> None) -> (x ← m; k x) l <> None.
Proof.
  unfold mbind, M_bind. destruct (m l) as [[[a|e] l']|]; intros H1 H2;
    [eapply H2; reflexivity|discriminate|contradiction].
Qed.

Lemma send_nopanic {T} `{Serialize T} (yt : PayloadType) (p : T) (bs : bytes) (l : Listener) :
  serialize p = Some bs -> send yt p l <> None.
Proof.
  intros Hs. unfold send, Channel_send_step, packet_serialize, Channel_packet, PacketBuilder_build.
  cbn [pk_payload]. rewrite Hs. cbn. repeat case_match; discriminate.
Qed.

Lemma send_panic {T} `{Serialize T} (yt : PayloadType) (p : T) (l : Listener) :
  serialize p = None -> send yt p l = None.
Proof.
  intros Hs. unfold send, Channel_send_step, packet_serialize, Channel_packet, PacketBuilder_build.
  cbn [pk_payload]. rewrite Hs. cbn. repeat case_match; reflexivity.
Qed.

Lemma recv_nopanic {T} `{Deserialize T} (l : Listener) : recv (T := T) l <> None.
Proof. unfold recv. destruct (w_recv (l_world l)) as [|[] ?]; discriminate. Qed.

Lemma try_init_nopanic (config : ListenConfig) (mw : Z) (l : Listener) : try_init config mw l <> None.
Proof.
  unfold try_init.
  apply bind_nopanic; [discriminate|intros ? l1 _].
  apply bind_nopanic; [eapply send_nopanic; reflexivity|intros ? l2 _].
  apply bind_nopanic; [apply recv_nopanic|intros ? l3 _].
  apply bind_nopanic; [discriminate|intros c l4 Hc; cbn in Hc; injection Hc as <- <-].
  apply bind_nopanic; [eapply send_nopanic; reflexivity|intros ? l5 _].
  apply bind_nopanic; [apply recv_nopanic|intros r l6 _].
  destruct (session_id r); discriminate.
Qed.

(** X17: a turn of the listener's loop panics exactly when it is a poll
    round and the local clock's year is negative (formatting the date
    into the 14-byte field fails and the [unwrap] panics); every other
    failure, I/O, decoding or a reply refusing the session, becomes an
    error that [transit_err] handles. *)
Theorem listen_step_panics (config : ListenConfig) (s : State.t) (l : Listener) :
  listen_step config s l = None <-> s = State.Poll /\ year (w_now (l_world l)) < 0.
Proof.
  assert (Hn : next config s l = None <-> s = State.Poll /\ year (w_now (l_world l)) < 0).
  { destruct s as [| |dur]; cbn [next].
    - split; [|intros [H _]; discriminate H]. intros H. exfalso. revert H.
      apply bind_nopanic; [apply try_init_nopanic|intros; discriminate].
    - unfold poll_round. split; [intros H; split; [reflexivity|] | intros [_ Hy]].
      + destruct (Z.ltb_spec (year (w_now (l_world l))) 0) as [Hy|Hy]; [exact Hy|].
        exfalso. revert H.
        apply bind_nopanic; [discriminate|intros n l1 Hn; cbn in Hn; injection Hn as <- <-].
        apply bind_nopanic; [discriminate|intros sid l2 Hs; cbn in Hs; injection Hs as <- <-].
        apply bind_nopanic; [discriminate|intros c l3 Hc; cbn in Hc; injection Hc as <- <-].
        destruct (full_command_serializes (l_session_id l) (hostname config) (w_now (l_world l)))
          as [bs Hbs]; [lia|].
        apply bind_nopanic; [eapply send_nopanic; exact Hbs|intros ? l4 _].
        apply bind_nopanic; [apply recv_nopanic|intros r l5 _].
        apply bind_nopanic; [destruct (session_id r); discriminate|intros ? l6 _].
        apply bind_nopanic; [|intros; discriminate].
        destruct (status r =? 32768); [|discriminate].
        apply bind_nopanic; [destruct (interrupt r); discriminate|intros ? l7 _].
        apply bind_nopanic; [discriminate|intros sid' l8 _].
        apply bind_nopanic; [discriminate|intros c' l9 Hc'; cbn in Hc'; injection Hc' as <- <-].
        apply bind_nopanic; [eapply send_nopanic; reflexivity|intros ? l10 _].
        apply bind_nopanic; [apply recv_nopanic|intros; discriminate].
      + unfold mbind, M_bind, get_now, get_session_id, unwrap. cbn -[send recv].
        rewrite send_panic; [reflexivity|].
        cbn [serialize Command_Serialize]. unfold Command_serialize, FullCommand_to_raw, datetime_format.
        cbn [year]. apply Z.ltb_lt in Hy. rewrite Hy. reflexivity.
    - split; [|intros [H _]; discriminate H]. intros H. exfalso. revert H.
      apply bind_nopanic; [apply try_init_nopanic|intros; discriminate]. }
  rewrite <- Hn. unfold listen_step. destruct (next config s l) as [[[] ?]|]; split;
    intros H; try discriminate H; reflexivity.
Qed.

(** ** [Host::into_buf] *)

Lemma be_units_inv (u : list Z) : Forall (fun v => 0 <= v < 2 ^ 16) u ->
  be_units (concat (map u16_to_be_bytes u)) = u.
Proof.
  induction 1 as [|v u Hv _ IH]; [reflexivity|].
  cbn [map concat u16_to_be_bytes app be_units]. rewrite IH, u16_bytes_inv by exact Hv. reflexivity.
Qed.

Lemma encode_utf16_range (c : Z) : 0 <= c < 1114112 -> Forall (fun v => 0 <= v < 2 ^ 16) (encode_utf16 c).
Proof.
  intros Hc. unfold encode_utf16. destruct (Z.ltb_spec c 65536) as [Hlt|Hge].
  - repeat constructor; lia.
  - assert (Hs : 0 <= Z.shiftr (c - 65536) 10 < 1024).
    { rewrite Z.shiftr_div_pow2 by lia. split; [apply Z.div_pos; lia|].
      apply Z.div_lt_upper_bound; cbn; lia. }
    assert (Hl : 0 <= Z.land (c - 65536) 1023 < 1024).
    { rewrite (Z.land_ones _ 10) by lia. cbn. apply Z.mod_pos_bound. lia. }
    repeat constructor; cbn; lia.
Qed.

Lemma utf16_range (s : list Z) : Forall (fun c => 0 <= c < 1114112) s ->
  Forall (fun v => 0 <= v < 2 ^ 16) (utf16 s).
Proof.
  induction 1 as [|c s Hc _ IH]; [constructor|].
  unfold utf16 in *. cbn [map concat]. apply Forall_app. split; [apply encode_utf16_range, Hc|exact IH].
Qed.

(** X18: [Host::into_buf] inverts the big-endian wire form of the host:
    16-bit units written big-endian (32 of them in a host) read back as
    themselves.
    In particular for a string of Unicode scalar values whose UTF-16 form
    has at most 32 units, [Host::new] then [into_buf] gives that UTF-16 form
    followed by zero units. *)
Theorem Host_into_buf_new (s : list Z) :
  (forall u, Forall (fun v => 0 <= v < 2 ^ 16) u -> Host_into_buf (concat (map u16_to_be_bytes u)) = u) /\
  (Forall (fun c => 0 <= c < 1114112) s -> (utf16_len s <= 32)%nat ->
   exists h, Host_new s = Some h /\ Host_into_buf h = utf16 s ++ repeat 0 (32 - utf16_len s)).
Proof.
  split; [exact be_units_inv|]. intros Hs Hle.
  unfold Host_new.
  replace (host_chars_loop s (repeat 0 32) 0 0)
    with (host_chars_loop s (utf16 [] ++ repeat 0 (32 - utf16_len [])) (utf16_len []) 0)
    by reflexivity.
  destruct (host_loop_spec s [] 0 ltac:(cbn; lia) ltac:(intros k _ Hk; cbn in Hk; lia))
    as [[_ [P' Heq]]|(p & c & r & P' & -> & Hlen & _ & _)].
  - rewrite Heq. cbn [app mbind option_bind]. eexists. split; [reflexivity|].
    apply be_units_inv. apply Forall_app. split; [apply utf16_range, Hs|].
    apply List.Forall_forall. intros x Hx. apply repeat_spec in Hx. lia.
  - exfalso. cbn [app] in Hlen. change (c :: r) with ([c] ++ r) in Hle. rewrite (app_assoc p [c] r), (utf16_len_app (p ++ [c]) r) in Hle. lia.
Qed.

(** ** Witnesses *)


Lemma identity_bad_utf8_lead_witness :
  identity_deserialize (u16_to_be_bytes (Z.of_nat (length ([65] ++ [150])) + 2) ++ [65] ++ [150])
  = Some (Err (InvalidFormat (InvalidByte 65 0))).
Proof.
  exact (proj2 (identity_bad_utf8_lead [65] [] 150 ltac:(repeat constructor; lia) ltac:(lia)
                  ltac:(cbn; lia)) ltac:(discriminate)).
Defined.

Lemma identity_deserialize_prefix_witness :
  identity_deserialize (u16_to_be_bytes 6 ++ [65; 58; 66; 59] ++ [1; 2; 3])
  = identity_deserialize (u16_to_be_bytes 6 ++ [65; 58; 66; 59]).
Proof. exact (proj1 (identity_deserialize_prefix [65; 58; 66; 59] [1; 2; 3] ltac:(cbn; lia))). Defined.

Lemma packet_build_parse_witness :
  PacketHeaderOnly_parse (header_to_raw (pk_header (PacketBuilder_build (PacketBuilder_new ScannerCommand Poll) interrupt_example))
                          ++ interrupt_to_raw interrupt_example ++ [9])
  = Ok {| pho_header := pk_header (PacketBuilder_build (PacketBuilder_new ScannerCommand Poll) interrupt_example);
          pho_payload := interrupt_to_raw interrupt_example |}.
Proof.
  exact (proj2 (packet_build_parse (PacketBuilder_new ScannerCommand Poll) interrupt_example
                  (interrupt_to_raw interrupt_example) [9]
                  ltac:(unfold Header_valid, RawInterrupt_SIZE; cbn; repeat split; intros; try discriminate; lia)
                  ltac:(reflexivity) ltac:(reflexivity) ltac:(cbn; unfold RawInterrupt_SIZE; lia))).
Defined.

Lemma channel_send_recv_witness :
  exists dgram, Channel_send_step Channel_new Poll interrupt_example true =
                  Some (true, Some dgram, {| ch_sequence := 1 |}) /\
                Channel_recv_datagram (T := Interrupt) dgram = Ok interrupt_example.
Proof.
  exact (@channel_send_recv Interrupt Interrupt_Serialize Interrupt_Deserialize Channel_new Poll interrupt_example (interrupt_to_raw interrupt_example) 20
           ltac:(cbn; lia) ltac:(reflexivity) ltac:(reflexivity) ltac:(cbn; unfold RawInterrupt_SIZE; lia)
           ltac:(vm_compute; reflexivity)).
Defined.

Lemma poll_response_reads_witness :
  poll_response_try_from interrupt_response_bytes = poll_response_try_from reserved_variant_bytes.
Proof.
  exact (proj2 (poll_response_reads interrupt_response_bytes reserved_variant_bytes
                  ltac:(intros i Hi; destruct i as [|[|[|[|i]]]]; [reflexivity..|lia]))
           ltac:(vm_compute; discriminate)
           ltac:(intros i Hi; repeat (destruct Hi as [<-|Hi]; [reflexivity|]); destruct Hi)).
Defined.

Lemma try_init_spec_witness :
  exists l', try_init backoff_example_config 3 init_listener = Some (Ok tt, l') /\
    l_session_id l' = 5 /\ ch_sequence (l_channel l') = 2.
Proof.
  destruct (try_init_spec backoff_example_config 3 init_listener [] [] init_discover_dgram
              init_poll_dgram {| mac_addr := Eui48 [0; 1; 2; 3; 4; 5]; ip_addr := V4 [192; 168; 1; 2] |}
              init_session_response ltac:(reflexivity) ltac:(reflexivity)
              ltac:(vm_compute; reflexivity) ltac:(vm_compute; reflexivity))
    as (l' & Hrun & Hseq & Hsid & _).
  exists l'. split; [exact Hrun|]. split; [exact Hsid|exact Hseq].
Defined.
